(** * Axway MCP server: session gateway and tool invoker

    A shallow embedding of [build/index.js]: the session registry kept in the
    two objects [transports] and [sessionTimestamps], the request dispatcher
    [handleRequest], the reaper [cleanupOldSessions], the header reader
    [getSessionIdFromHeaders], the classifier [isInitializeRequest] and the
    tool handler installed by [registerTools].

    Conventions of the embedding.
    - JavaScript values are the data values of [Js.value]; numbers are the
      integer-valued ones (timestamps, counters): [VNum n] is the Number
      value for the integer [n], and is printed as such.
    - An object used as a dictionary is a [gmap string V] of its own
      properties; reading a property goes through [Js.js_get], which falls
      back to the members every object inherits from [Object.prototype].
    - [console.log] and [console.error] diagnostics are not modelled.
    - Calls into the SDK and the HTTP response, and every write to the
      registry, are recorded in order as [event]s. *)

From Stdlib Require Import ZArith NArith Ascii.
From stdpp Require Import base strings gmap list pretty.

Set Warnings "-register-all".
Local Open Scope Z_scope.

(** ** JavaScript values *)

Module Js.

Inductive value : Type :=
| VUndefined
| VNull
| VBool (b : bool)
| VNum (n : Z)
| VStr (s : string)
| VArr (xs : list value)
| VObj (fields : list (string * value)).  (* own properties in enumeration order, names distinct *)

(** [v == null]: [null] or [undefined], the values [?.] short-circuits on
    and on which a plain property read throws a TypeError. *)
Definition nullish (v : value) : bool :=
  match v with
  | VUndefined | VNull => true
  | _ => false
  end.

(** ToBoolean. *)
Definition truthy (v : value) : bool :=
  match v with
  | VUndefined | VNull => false
  | VBool b => b
  | VNum n => negb (n =? 0)
  | VStr s => negb (String.eqb s "")
  | VArr _ | VObj _ => true
  end.

(** [a || b]. *)
Definition or_else (a b : value) : value := if truthy a then a else b.

Fixpoint assoc (k : string) (fields : list (string * value)) : value :=
  match fields with
  | [] => VUndefined
  | (k', v) :: rest => if String.eqb k k' then v else assoc k rest
  end.

(** [v.name] on a value that is not nullish, for a [name] that is neither
    an array index nor a member of a built-in prototype. *)
Definition get_prop (v : value) (name : string) : value :=
  match v with
  | VObj fields => assoc name fields
  | VArr xs => if String.eqb name "length" then VNum (Z.of_nat (length xs)) else VUndefined
  | VStr s => if String.eqb name "length" then VNum (Z.of_nat (String.length s)) else VUndefined
  | _ => VUndefined
  end.

(** [v[0]] on a value that is not nullish. *)
Definition get_first (v : value) : value :=
  match v with
  | VObj fields => assoc "0" fields
  | VArr xs => match xs with [] => VUndefined | x :: _ => x end
  | VStr s => match s with EmptyString => VUndefined | String c _ => VStr (String c EmptyString) end
  | _ => VUndefined
  end.

(** [v?.name] and [v?.[0]]. *)
Definition opt_prop (v : value) (name : string) : value :=
  if nullish v then VUndefined else get_prop v name.

Definition opt_first (v : value) : value :=
  if nullish v then VUndefined else get_first v.

(** [new Error(message)]. *)
Definition Error (message : string) : value := VObj [("message", VStr message)].

(** *** Printing numbers

    The Number value for the integer [m]: [m] itself when it has at most 53
    significant bits, else the nearest multiple of a power of two that has,
    ties to even. Results from [2^1024] on stand for [Infinity]. *)
Definition round_to_double (m : N) : N :=
  let bits := N.size m in
  if (bits <=? 53)%N then m
  else
    let sh := (bits - 53)%N in
    let q := N.shiftr m sh in
    let r := N.land m (N.ones sh) in
    let half := N.shiftl 1 (sh - 1) in
    let q' := if (half <? r)%N || ((r =? half)%N && N.odd q) then (q + 1)%N else q in
    N.shiftl q' sh.

Definition is_Infinity (x : N) : bool := (2 ^ 1024 <=? x)%N.

(** The digits [s], their number [k] and the exponent [n] of
    Number::toString: the least [k] for which some [s] of [k] digits has
    [s * 10^(n-k)] round to [x]; of two such [s] the one nearer to [x], the
    even one on a tie. [x] is an integer Number value from [2^53] on and
    [digits] the number of its decimal digits; [k] runs from 1 to 17. *)
Fixpoint shortest (fuel : nat) (k : N) (x : N) (digits : N) : N * N * N :=
  match fuel with
  | O => (x, digits, digits)
  | S fuel' =>
      let pow := (10 ^ (digits - k))%N in
      let lo := (x / pow)%N in
      let hi := (lo + 1)%N in
      let ok s := (round_to_double (s * pow) =? x)%N in
      let up := if (hi =? 10 ^ k)%N then (10 ^ (k - 1), k, digits + 1)%N else (hi, k, digits) in
      let down := (lo, k, digits) in
      match ok lo, ok hi with
      | true, true =>
          let dl := (x - lo * pow)%N in
          let dh := (hi * pow - x)%N in
          if (dl <? dh)%N then down
          else if (dh <? dl)%N then up
          else if N.even lo then down else up
      | true, false => down
      | false, true => up
      | false, false => shortest fuel' (k + 1)%N x digits
      end
  end.

Fixpoint zeros (n : nat) : string :=
  match n with
  | O => ""
  | S n' => String "0" (zeros n')
  end.

(** Number::toString of a positive integer Number value: all its digits
    below [10^21], the exponent form from there on. *)
Definition digits_of (x : N) : string :=
  if (x <? 2 ^ 53)%N then pretty x
  else
    let '(s, k, n) := shortest 17 1 x (N.of_nat (String.length (pretty x))) in
    let ds := pretty s in
    if (n <=? 21)%N then ds +:+ zeros (N.to_nat (n - k))
    else
      match ds with
      | EmptyString => ""
      | String d rest =>
          String d (if (k =? 1)%N then "" else "." +:+ rest) +:+ "e+" +:+ pretty (n - 1)%N
      end.

Definition Number_toString (n : Z) : string :=
  let x := round_to_double (Z.abs_N n) in
  let text := if is_Infinity x then "Infinity" else digits_of x in
  if n <? 0 then "-" +:+ text else text.

(** *** String conversion, as performed by a template literal

    [None] is the TypeError "Cannot convert object to primitive value". An
    object is printed by the [toString] it finds: the one of
    [Object.prototype], unless an own property shadows it; an own property
    holds data, which cannot be called, and the inherited [valueOf] then
    returns the object itself. An array joins the conversions of its
    elements. *)

Definition has_own (name : string) (fields : list (string * value)) : bool :=
  existsb (λ field, String.eqb name field.1) fields.

Fixpoint ToString (v : value) : option string :=
  match v with
  | VUndefined => Some "undefined"
  | VNull => Some "null"
  | VBool true => Some "true"
  | VBool false => Some "false"
  | VNum n => Some (Number_toString n)
  | VStr s => Some s
  | VArr xs =>
      (fix join (l : list value) : option string :=
         let item x := match x with
                       | VUndefined | VNull => Some ""
                       | _ => ToString x
                       end in
         match l with
         | [] => Some ""
         | [x] => item x
         | x :: rest =>
             match item x, join rest with
             | Some a, Some b => Some (a +:+ "," +:+ b)
             | _, _ => None
             end
         end) xs
  | VObj fields => if has_own "toString" fields then None else Some "[object Object]"
  end.

(** *** JSON.stringify *)

Definition dquote : ascii := "034"%char.
Definition backslash : ascii := "092"%char.

Definition hex_digit (d : N) : ascii :=
  match d with
  | 0 => "0" | 1 => "1" | 2 => "2" | 3 => "3" | 4 => "4" | 5 => "5"
  | 6 => "6" | 7 => "7" | 8 => "8" | 9 => "9" | 10 => "a" | 11 => "b"
  | 12 => "c" | 13 => "d" | 14 => "e" | _ => "f"
  end%N%char.

Definition escape_char (c : ascii) : string :=
  let n := N_of_ascii c in
  if (n =? 34)%N then String backslash (String dquote EmptyString)
  else if (n =? 92)%N then String backslash (String backslash EmptyString)
  else if (n =? 8)%N then String backslash "b"
  else if (n =? 9)%N then String backslash "t"
  else if (n =? 10)%N then String backslash "n"
  else if (n =? 12)%N then String backslash "f"
  else if (n =? 13)%N then String backslash "r"
  else if (n <? 32)%N then
    String backslash ("u00" +:+ String (hex_digit (N.shiftr n 4))
                                 (String (hex_digit (N.land n 15)) EmptyString))
  else String c EmptyString.

Fixpoint escape (s : string) : string :=
  match s with
  | EmptyString => EmptyString
  | String c rest => escape_char c +:+ escape rest
  end.

Definition quote (s : string) : string :=
  String dquote (escape s +:+ String dquote EmptyString).

(** A number that is not finite is serialised as [null]. *)
Definition JSON_number (n : Z) : string :=
  if is_Infinity (round_to_double (Z.abs_N n)) then "null" else Number_toString n.

(** [None] is the [undefined] that [JSON.stringify(undefined)] returns. *)
Fixpoint JSON_stringify (v : value) : option string :=
  match v with
  | VUndefined => None
  | VNull => Some "null"
  | VBool true => Some "true"
  | VBool false => Some "false"
  | VNum n => Some (JSON_number n)
  | VStr s => Some (quote s)
  | VArr xs =>
      let body :=
        (fix items (l : list value) : string :=
           let item x := default "null" (JSON_stringify x) in
           match l with
           | [] => ""
           | [x] => item x
           | x :: rest => item x +:+ "," +:+ items rest
           end) xs in
      Some ("[" +:+ body +:+ "]")
  | VObj fields =>
      let body :=
        (fix members (l : list (string * value)) (first : bool) : string :=
           match l with
           | [] => ""
           | (k, x) :: rest =>
               match JSON_stringify x with
               | None => members rest first
               | Some t =>
                   (if first then "" else ",") +:+ quote k +:+ ":" +:+ t
                     +:+ members rest false
               end
           end) fields true in
      Some ("{" +:+ body +:+ "}")
  end.

(** *** Case conversion of ASCII text *)

Definition lower_char (c : ascii) : ascii :=
  let n := N_of_ascii c in
  if ((65 <=? n) && (n <=? 90))%N then ascii_of_N (n + 32) else c.

Definition upper_char (c : ascii) : ascii :=
  let n := N_of_ascii c in
  if ((97 <=? n) && (n <=? 122))%N then ascii_of_N (n - 32) else c.

Fixpoint map_string (f : ascii → ascii) (s : string) : string :=
  match s with
  | EmptyString => EmptyString
  | String c rest => String (f c) (map_string f rest)
  end.

Definition toLowerCase : string → string := map_string lower_char.
Definition toUpperCase : string → string := map_string upper_char.

(** *** Objects used as dictionaries

    [transports = {}] and [sessionTimestamps = {}] are ordinary objects:
    a read of [o[k]] that finds no own property continues in
    [Object.prototype]. *)

Definition Object_prototype_names : list string :=
  [ "constructor"; "__defineGetter__"; "__defineSetter__"; "hasOwnProperty";
    "__lookupGetter__"; "__lookupSetter__"; "isPrototypeOf";
    "propertyIsEnumerable"; "toString"; "valueOf"; "__proto__";
    "toLocaleString" ].

Definition inherited (k : string) : bool :=
  existsb (String.eqb k) Object_prototype_names.

Inductive slot (V : Type) : Type :=
| Own (v : V)            (* an own property *)
| Builtin (name : string) (* a function (or the prototype itself) found on Object.prototype *)
| Missing.               (* undefined *)
Arguments Own {V} v.
Arguments Builtin {V} name.
Arguments Missing {V}.

Definition js_get {V : Type} (o : gmap string V) (k : string) : slot V :=
  match o !! k with
  | Some v => Own v
  | None => if inherited k then Builtin k else Missing
  end.

(** Truthiness of [o[k]] when the own properties hold objects. *)
Definition present {V : Type} (s : slot V) : bool :=
  match s with
  | Missing => false
  | _ => true
  end.

(** [o[k] = v] for a primitive or object [v] and a key other than
    [__proto__]; assigning a number to [__proto__] is ignored by the
    accessor on [Object.prototype] and creates no own property. *)
Definition js_set {V : Type} (o : gmap string V) (k : string) (v : V) : gmap string V :=
  if String.eqb k "__proto__" then o else <[k := v]> o.

(** [delete o[k]] removes an own property and otherwise does nothing. *)
Definition js_delete {V : Type} (o : gmap string V) (k : string) : gmap string V :=
  delete k o.

(** [Object.keys(o)]: the own enumerable property names. The order of the
    list is that of the [gmap], not the insertion order of the engine. *)
Definition Object_keys {V : Type} (o : gmap string V) : list string :=
  (map_to_list o).*1.

End Js.

(** ** The tool handler of [registerTools] *)

Module Tools.
Import Js.

(** How an awaited call ends: with a result, or with the thrown value. *)
Inductive settled : Type :=
| Fulfilled (result : value)
| Rejected (reason : value).

(** What the handler itself does: return, or let an exception escape. *)
Inductive outcome (A : Type) : Type :=
| Returned (a : A)
| Thrown (reason : value).
Arguments Returned {A} a.
Arguments Thrown {A} reason.

(** The operations of [src/operations] reach a remote gateway; they are the
    environment here: given the name of an operation and the argument bag,
    an oracle tells how the call settles (the projections [args.id],
    [args.name], ... of each case are part of it). *)
Definition operations : Type := string → value → settled.

(** The [switch (tool.method)] of the handler: case label and the operation
    it awaits. *)
Definition routes : list (string * string) :=
  [ ("get_mcp_server_time", "system.getMcpServerTime");
    ("get_manager_config", "system.getManagerConfig");
    ("list_topology", "topology.listTopology");
    ("get_instance_traffic", "monitoring.getInstanceTraffic");
    ("get_service_traffic", "monitoring.getServiceTraffic");
    ("get_instance_metrics_timeline", "monitoring.getInstanceMetricsTimeline");
    ("search_traffic_events", "monitoring.searchTrafficEvents");
    ("get_traffic_event_details", "monitoring.getTrafficEventDetails");
    ("get_traffic_event_payload", "monitoring.getTrafficEventPayload");
    ("get_traffic_event_trace", "monitoring.getTrafficEventTrace");
    ("list_organizations", "organizations.listOrganizations");
    ("get_organization", "organizations.getOrganization");
    ("create_organization", "organizations.createOrganization");
    ("update_organization", "organizations.updateOrganization");
    ("delete_organization", "organizations.deleteOrganization");
    ("list_users", "users.listUsers");
    ("get_user", "users.getUser");
    ("create_user", "users.createUser");
    ("update_user", "users.updateUser");
    ("delete_user", "users.deleteUser");
    ("list_applications", "applications.listApplications");
    ("get_application", "applications.getApplication");
    ("get_api_keys_for_application", "applications.getApiKeysForApplication");
    ("create_api_key", "applications.createApiKey");
    ("get_oauth_credentials_for_application", "applications.getOAuthCredentialsForApplication");
    ("create_oauth_credential", "applications.createOAuthCredential");
    ("get_permissions_for_application", "applications.getPermissionsForApplication");
    ("list_api_proxies", "proxies.listApiProxies");
    ("get_api_proxy", "proxies.getApiProxy");
    ("get_proxy_authentication_info", "proxies.getProxyAuthenticationInfo");
    ("create_api_proxy", "proxies.createApiProxy");
    ("update_api_proxy", "proxies.updateApiProxy");
    ("delete_api_proxy", "proxies.deleteApiProxy");
    ("publish_api", "proxies.publishApi");
    ("unpublish_api", "proxies.unpublishApi");
    ("deprecate_api", "proxies.deprecateApi");
    ("list_backend_apis", "repository.listBackendApis");
    ("import_backend_api_from_url", "repository.importBackendApiFromUrl");
    ("delete_backend_api", "repository.deleteBackendApi");
    ("import_backend_api_from_file", "repository.importBackendApiFromFile");
    ("upload_file_for_import", "repository.uploadFileForImport");
    ("list_api_access", "access.listApiAccess");
    ("grant_api_access", "access.grantApiAccess");
    ("revoke_api_access", "access.revokeApiAccess");
    ("list_alerts", "alerts.listAlerts");
    ("update_alert_settings", "alerts.updateAlertSettings");
    ("get_application_quotas", "quotas.getApplicationQuotas");
    ("update_application_quotas", "quotas.updateApplicationQuotas");
    ("get_api_catalog", "proxies.listApiProxies");
    ("get_metrics", "metrics.getMetrics") ].

Fixpoint route (method : string) (table : list (string * string)) : option string :=
  match table with
  | [] => None
  | (label, op) :: rest => if String.eqb method label then Some op else route method rest
  end.

(** The body of the [try] up to the [switch]'s [break]: the awaited
    operation, or the [default] case throwing. *)
Definition invoke (ops : operations) (method : string) (args : value) : settled :=
  match route method routes with
  | Some op => ops op args
  | None =>
      Rejected (Error ("Tool '" +:+ method +:+
                       "' is defined but not implemented in the server."))
  end.

Record ContentItem : Type := { type : string; text : option string }.
Record ToolResult : Type := { content : list ContentItem }.

(** [{ content: [{ type: 'text', text }] }] *)
Definition envelope (t : option string) : ToolResult :=
  {| content := [ {| type := "text"; text := t |} ] |}.

(** [error.response?.data?.errors?.[0]?.message || error.message || ...],
    for an [error] that is not nullish. *)
Definition errorMessage (error : value) : value :=
  or_else
    (or_else
       (opt_prop (opt_first (opt_prop (opt_prop (get_prop error "response") "data") "errors"))
                 "message")
       (get_prop error "message"))
    (VStr "An unknown error occurred.").

Definition TypeError (message : string) : value :=
  VObj [("name", VStr "TypeError"); ("message", VStr message)].

(** The TypeError of reading [v.name] when [v] is [null] or [undefined]. *)
Definition cannot_read (v : value) (name : string) : value :=
  TypeError ("Cannot read properties of " +:+
             match v with VNull => "null" | _ => "undefined" end +:+
             " (reading '" +:+ name +:+ "')").

(** The TypeError of a string conversion that finds no usable [toString]
    or [valueOf]. *)
Definition cannot_convert : value :=
  TypeError "Cannot convert object to primitive value".

(** The [catch] block has no handler of its own: the read of
    [error.response] on a thrown [null] or [undefined], and the template
    literal on a message that has no string conversion, throw out of the
    handler. *)
Definition handler (ops : operations) (method : string) (args : value) : outcome ToolResult :=
  match invoke ops method args with
  | Fulfilled result => Returned (envelope (JSON_stringify result))
  | Rejected error =>
      if nullish error
      then Thrown (cannot_read error "response")
      else
        match ToString (errorMessage error) with
        | None => Thrown cannot_convert
        | Some message =>
            Returned (envelope (JSON_stringify
              (VObj [("error", VStr ("Execution failed: " +:+ message))])))
        end
  end.

(** [tools().forEach(tool => this.tool(tool.method, ..., handler))]: the
    handlers by method name. *)
Definition registerTools (ops : operations) (tools : list string)
  : list (string * (value → outcome ToolResult)) :=
  map (λ method, (method, handler ops method)) tools.

End Tools.

(** ** The session gateway *)

Module Server.
Import Js.
Export Tools(outcome, Returned, Thrown, TypeError, cannot_read, cannot_convert).

Definition SESSION_ID_HEADER_NAME : string := "mcp-session-id".

(** A [StreamableHTTPServerTransport]: the id its [sessionIdGenerator]
    yields and its [sessionId] field, unset on construction. *)
Record Transport : Type := {
  generator : string;
  sessionId : option string
}.

(** The registry: the two objects of [AxwayMcpServer]. *)
Record Registry : Type := {
  transports : gmap string Transport;
  sessionTimestamps : gmap string Z
}.

Definition empty_registry : Registry :=
  {| transports := ∅; sessionTimestamps := ∅ |}.

(** The text of a request body, by what [body ? JSON.parse(body) : null]
    makes of it. *)
Inductive Body : Type :=
| Empty                (* no body: [jsonBody] is [null] *)
| Json (v : value)     (* text that parses to [v] *)
| Malformed.           (* text that [JSON.parse] rejects *)

Record Request : Type := {
  method : string;
  headers : gmap string string;
  body : Body
}.

(** What the environment contributes to one call of [handleRequest]: the
    value of [Date.now()] and the 128 random bits of [randomUUID()]. *)
Record Env : Type := {
  now : Z;
  random : N
}.

Inductive event : Type :=
| SetHeader (name value : string)                 (* res.setHeader *)
| WriteHead (status : Z) (hdrs : list (string * string))
| End (payload : option string)                   (* res.end *)
| NewTransport (t : Transport)                    (* new StreamableHTTPServerTransport *)
| Connect (t : Transport)                         (* this.connect(transport) *)
| HandleRequest (t : Transport) (parsed : option value)
                                                  (* transport.handleRequest(req, res[, jsonBody]) *)
| Close (t : Transport)                           (* transport.close() *)
| SetOnclose (t : Transport) (id : string)        (* transport.onclose = ... *)
| SetTransport (id : string) (t : Transport)      (* this.transports[id] = t *)
| SetTimestamp (id : string) (ts : Z)             (* this.sessionTimestamps[id] = ts *)
| DeleteTransport (id : string)                   (* delete this.transports[id] *)
| DeleteTimestamp (id : string).                  (* delete this.sessionTimestamps[id] *)

(** *** Code that reads and writes the registry, may throw, and leaves a
    trace *)

Definition M (A : Type) : Type := Registry → outcome A * Registry * list event.

Definition ret {A : Type} (a : A) : M A := λ st, (Returned a, st, []).

Definition throw {A : Type} (reason : value) : M A := λ st, (Thrown reason, st, []).

Definition bind {A B : Type} (m : M A) (f : A → M B) : M B := λ st,
  match m st with
  | (Returned a, st1, tr1) =>
      match f a st1 with
      | (r, st2, tr2) => (r, st2, tr1 ++ tr2)
      end
  | (Thrown reason, st1, tr1) => (Thrown reason, st1, tr1)
  end.

Notation "x <- m ;; k" := (bind m (λ x, k))
  (at level 100, m at next level, right associativity).
Notation "m ;; k" := (bind m (λ _, k))
  (at level 100, right associativity).

Definition emit (e : event) : M unit := λ st, (Returned tt, st, [e]).

Definition read : M Registry := λ st, (Returned st, st, []).

Definition set_transport (id : string) (t : Transport) : M unit := λ st,
  (Returned tt,
   {| transports := js_set (transports st) id t;
      sessionTimestamps := sessionTimestamps st |},
   [SetTransport id t]).

Definition set_timestamp (id : string) (ts : Z) : M unit := λ st,
  (Returned tt,
   {| transports := transports st;
      sessionTimestamps := js_set (sessionTimestamps st) id ts |},
   [SetTimestamp id ts]).

Definition delete_transport (id : string) : M unit := λ st,
  (Returned tt,
   {| transports := js_delete (transports st) id;
      sessionTimestamps := sessionTimestamps st |},
   [DeleteTransport id]).

Definition delete_timestamp (id : string) : M unit := λ st,
  (Returned tt,
   {| transports := transports st;
      sessionTimestamps := js_delete (sessionTimestamps st) id |},
   [DeleteTimestamp id]).

Fixpoint forEach {A : Type} (l : list A) (f : A → M unit) : M unit :=
  match l with
  | [] => ret tt
  | x :: rest => f x ;; forEach rest f
  end.

(** Projections of a run. *)
Definition result_of {A : Type} (r : outcome A * Registry * list event) : outcome A := r.1.1.
Definition state_of {A : Type} (r : outcome A * Registry * list event) : Registry := r.1.2.
Definition trace_of {A : Type} (r : outcome A * Registry * list event) : list event := r.2.

(** *** [randomUUID()]

    A version-4 UUID printed from 128 random bits: 8-4-4-4-12 lower-case
    hexadecimal digits, the version digit 4 and the variant bits 10. *)

Fixpoint hex (digits : nat) (n : N) (acc : string) : string :=
  match digits with
  | O => acc
  | S d => hex d (N.shiftr n 4) (String (hex_digit (N.land n 15)) acc)
  end.

Definition randomUUID (bits : N) : string :=
  let node := hex 12 bits EmptyString in
  let clock_seq :=
    hex 1 (8 + N.land (N.shiftr bits 60) 3)%N
      (hex 3 (N.shiftr bits 48) (String "-" node)) in
  let time_hi_and_version :=
    String "4" (hex 3 (N.shiftr bits 64) (String "-" clock_seq)) in
  let time_mid := hex 4 (N.shiftr bits 80) (String "-" time_hi_and_version) in
  hex 8 (N.shiftr bits 96) (String "-" time_mid).

(** *** The reaper *)

Definition maxAge : Z := 30 * 60 * 1000.


(** One turn of the [forEach] of [cleanupOldSessions]. A key that holds no
    own number makes the subtraction NaN and the comparison false. *)
Definition cleanup_session (now : Z) (sessionId : string) : M unit :=
  st <- read ;;
  match js_get (sessionTimestamps st) sessionId with
  | Own ts =>
      if now - ts >? maxAge
      then delete_transport sessionId ;; delete_timestamp sessionId
      else ret tt
  | _ => ret tt
  end.

Definition cleanupOldSessions (now : Z) : M unit :=
  st <- read ;;
  forEach (Object_keys (sessionTimestamps st)) (cleanup_session now).

(** The timer of the constructor: in http mode, and only then,
    [setInterval] runs [cleanupOldSessions] at the given period (in ms). *)
Definition reaper_timer (transportMode : string) : option (Z * (Z → M unit)) :=
  if String.eqb transportMode "http"
  then Some (5 * 60 * 1000, cleanupOldSessions)
  else None.

(** The [onclose] callback installed on the transport of session [id]. *)
Definition onclose (id : string) : M unit :=
  delete_transport id ;; delete_timestamp id.

(** *** Reading the request *)

Definition variations : list string :=
  [ SESSION_ID_HEADER_NAME;
    toLowerCase SESSION_ID_HEADER_NAME;
    toUpperCase SESSION_ID_HEADER_NAME;
    "mcp-session-id";
    toLowerCase "mcp-session-id";
    toUpperCase "mcp-session-id" ].

(** [if (headers[variation]) return headers[variation]]: a header value is
    a string, truthy unless empty. *)
Fixpoint first_header (headers : gmap string string) (names : list string) : option string :=
  match names with
  | [] => None
  | variation :: rest =>
      match headers !! variation with
      | Some v => if String.eqb v "" then first_header headers rest else Some v
      | None => first_header headers rest
      end
  end.

Definition getSessionIdFromHeaders (headers : gmap string string) : option string :=
  first_header headers variations.

(** [data?.method === 'initialize'] *)
Definition check (data : value) : bool :=
  match opt_prop data "method" with
  | VStr s => String.eqb s "initialize"
  | _ => false
  end.

Definition isInitializeRequest (body : value) : bool :=
  match body with
  | VArr xs => existsb check xs
  | _ => check body
  end.

(** [body ? JSON.parse(body) : null]; [None] when [JSON.parse] throws. *)
Definition jsonBody_of (b : Body) : option value :=
  match b with
  | Empty => Some VNull
  | Json v => Some v
  | Malformed => None
  end.

Definition parse (b : Body) : M value :=
  match jsonBody_of b with
  | Some v => ret v
  | None => throw (VObj [("name", VStr "SyntaxError")])
  end.

(** *** The dispatcher *)

Definition reject (status : Z) (error message : string) : M unit :=
  emit (WriteHead status [("Content-Type", "application/json")]) ;;
  emit (End (JSON_stringify (VObj [("error", VStr error); ("message", VStr message)]))).

(** [await slot.handleRequest(req, res, ...)]: a transport handles the call;
    what [Object.prototype] provides has no [handleRequest] to call. *)
Definition call_handleRequest (s : slot Transport) (parsed : option value) : M unit :=
  match s with
  | Own t => emit (HandleRequest t parsed)
  | Builtin _ => throw (TypeError "handleRequest is not a function")
  | Missing => throw (TypeError "Cannot read properties of undefined (reading 'handleRequest')")
  end.

Definition invalid_session_message : string :=
  "The provided session ID is no longer valid. Please reinitialize the connection.".

Definition handleRequest (env : Env) (req : Request) : M unit :=
  jsonBody <- parse (body req) ;;
  if String.eqb (method req) "GET" then
    st <- read ;;
    match getSessionIdFromHeaders (headers req) with
    | Some sid =>
        if present (js_get (transports st) sid)
        then (* sessionId && this.transports[sessionId] *)
          call_handleRequest (js_get (transports st) sid) None
        else (* sessionId && !this.transports[sessionId] *)
          reject 400 "Invalid session ID" invalid_session_message
    | None =>
        reject 400 "No session ID"
          "GET requests require a valid session ID. Please initialize the connection first."
    end
  else if String.eqb (method req) "POST" then
    st <- read ;;
    match getSessionIdFromHeaders (headers req) with
    | Some sid =>
        if present (js_get (transports st) sid)
        then (* sessionId && this.transports[sessionId] *)
          set_timestamp sid (now env) ;;
          st' <- read ;;
          call_handleRequest (js_get (transports st') sid) (Some jsonBody)
        else (* sessionId && !this.transports[sessionId] *)
          reject 400 "Invalid session ID" invalid_session_message
    | None =>
        if isInitializeRequest jsonBody
        then (* !sessionId && this.isInitializeRequest(jsonBody) *)
          let generatedSessionId := randomUUID (random env) in
          let transport := {| generator := generatedSessionId; sessionId := None |} in
          emit (NewTransport transport) ;;
          emit (Connect transport) ;;
          let transport := {| generator := generatedSessionId;
                              sessionId := Some generatedSessionId |} in
          match sessionId transport with
          | Some id =>
              if String.eqb id "" then ret tt
              else
                emit (SetHeader SESSION_ID_HEADER_NAME id) ;;
                set_transport id transport ;;
                set_timestamp id (now env) ;;
                emit (SetOnclose transport id)
          | None => ret tt
          end ;;
          emit (HandleRequest transport (Some jsonBody))
        else
          reject 400 "Invalid request"
            "POST requests require a valid session ID or must be an initialize request."
    end
  else
    emit (WriteHead 405 [("Allow", "GET, POST")]) ;;
    emit (End (Some "Method Not Allowed")).

(** [main]'s request listener: a rejected [handleRequest] is answered with
    500 unless the response has ended. *)
Definition writableEnded (tr : list event) : bool :=
  existsb (λ e, match e with End _ => true | _ => false end) tr.

Definition serve (env : Env) (req : Request) (st : Registry) : Registry * list event :=
  match handleRequest env req st with
  | (Returned _, st', tr) => (st', tr)
  | (Thrown _, st', tr) =>
      (st', tr ++ (if writableEnded tr then []
                   else [WriteHead 500 []; End (Some "Internal Server Error")]))
  end.

End Server.

(** ** The header object of node:http

    [handleRequest] receives the [IncomingMessage] of [createServer], and
    reads the session id from its [headers]: the header lines of the
    request as node:http collects them, each name in lower case. A header
    that comes twice keeps its first value if it is one of
    [discards_duplicates], and otherwise has the values joined, with [; ]
    for [cookie] and [, ] for the others. [set-cookie], which node:http
    keeps as an array, is left out of this view of the string-valued
    headers. *)

Module Http.
Import Js.

Definition discards_duplicates : list string :=
  [ "age"; "authorization"; "content-length"; "content-type"; "etag";
    "expires"; "from"; "host"; "if-modified-since"; "if-unmodified-since";
    "last-modified"; "location"; "max-forwards"; "proxy-authorization";
    "referer"; "retry-after"; "server"; "user-agent" ].

Definition addHeaderLine (dest : gmap string string) (line : string * string)
  : gmap string string :=
  let field := toLowerCase line.1 in
  if String.eqb field "set-cookie" then dest
  else
    match dest !! field with
    | None => js_set dest field line.2
    | Some value =>
        if existsb (String.eqb field) discards_duplicates then dest
        else js_set dest field
               (value +:+ (if String.eqb field "cookie" then "; " else ", ") +:+ line.2)
    end.

(** [req.headers] for a request that carries the header [lines]. *)
Definition incoming_headers (lines : list (string * string)) : gmap string string :=
  foldl addHeaderLine ∅ lines.

End Http.

(** ** [removeEmptyValues] of [utils] *)

Module Utils.
Import Js.

(** What the function drops from an array or an object: [null],
    [undefined], the empty string, the empty array and the object with no
    own key. *)
Definition is_empty (v : value) : bool :=
  match v with
  | VUndefined | VNull => true
  | VStr s => String.eqb s ""
  | VArr xs => match xs with [] => true | _ => false end
  | VObj fields => match fields with [] => true | _ => false end
  | _ => false
  end.

(** [newObj[key] = cleanedValue] creates an own property, except under the
    key [__proto__], which reaches the accessor of [Object.prototype]
    instead. *)
Definition assignable (key : string) : bool := negb (String.eqb key "__proto__").

Fixpoint removeEmptyValues (data : value) : value :=
  match data with
  | VArr items =>
      VArr (List.filter (λ item, negb (is_empty item))
              (List.map removeEmptyValues items))
  | VObj fields =>
      VObj (List.filter (λ kv, negb (is_empty kv.2) && assignable kv.1)
              (List.map (λ kv, (kv.1, removeEmptyValues kv.2)) fields))
  | _ => data
  end.

End Utils.

(** ** Operations behind the tools *)

Module Operations.
Import Js Tools Utils.

(** *** [uploadFileForImport] of [repository] *)

Definition uploadFileForImport (args : value) : settled :=
  if nullish args
  then Rejected (cannot_read args "filePath")
  else if truthy (get_prop args "filePath")
  then Fulfilled (VObj [("filePath", get_prop args "filePath")])
  else Rejected (Error "Parâmetro obrigatório: filePath").

(** *** [transformMetrics] and [getMetrics] of [metrics] *)

(** [array.map(f)] for an [f] that may throw: the first exception ends the
    traversal. *)
Fixpoint map_throwing (f : value → outcome value) (l : list value) : outcome (list value) :=
  match l with
  | [] => Returned []
  | x :: rest =>
      match f x with
      | Thrown e => Thrown e
      | Returned y =>
          match map_throwing f rest with
          | Thrown e => Thrown e
          | Returned ys => Returned (y :: ys)
          end
      end
  end.

Definition transformMetric (item : value) : outcome value :=
  if nullish item
  then Thrown (cannot_read item "name")
  else Returned (VObj
    [ ("name", or_else (get_prop item "name") (VStr "N/A"));
      ("successes", or_else (get_prop item "successes") (VNum 0));
      ("failures", or_else (get_prop item "failures") (VNum 0));
      ("exceptions", or_else (get_prop item "exceptions") (VNum 0));
      ("numMessages", or_else (get_prop item "numMessages") (VNum 0));
      ("avgProcTime", or_else (get_prop item "avgProcTime") (VNum 0)) ]).

Definition transformMetrics (data : value) : outcome (list value) :=
  match data with
  | VArr items => map_throwing transformMetric items
  | _ => Returned []
  end.

(** [name !== 'N/A'] *)
Definition not_NA (name : value) : bool :=
  match name with
  | VStr s => negb (String.eqb s "N/A")
  | _ => true
  end.

Definition alerts_tool : value :=
  VObj [ ("tool_name", VStr "list_alerts");
         ("description", VStr "Verificar se há alertas de sistema que possam estar relacionados a falhas ou exceções vistas nas métricas.");
         ("parameters", VArr []) ].

(** The entry built for one client name; the template literal of its
    description throws on a name that has no string conversion. *)
Definition quotas_tool (name : value) : outcome value :=
  match ToString name with
  | None => Thrown cannot_convert
  | Some shown =>
      Returned (VObj
        [ ("tool_name", VStr "get_application_quotas");
          ("description", VStr ("Verificar as cotas da aplicação '" +:+ shown +:+
                                "' (se for uma aplicação)."));
          ("parameters", VArr [VObj [("name", VStr "applicationId"); ("value", name)]]) ])
  end.

(** [api_getMetrics] is the call [api.getMetrics(params)], as it settles. *)
Definition getMetrics (api_getMetrics : value → settled) (params : value) : settled :=
  match api_getMetrics params with
  | Rejected e => Rejected e
  | Fulfilled rawMetrics =>
      match transformMetrics rawMetrics with
      | Thrown e => Rejected e
      | Returned transformedMetrics =>
          let clientNames :=
            List.filter not_NA (List.map (λ m, get_prop m "name") transformedMetrics) in
          match map_throwing quotas_tool clientNames with
          | Thrown e => Rejected e
          | Returned quotas_tools =>
              Fulfilled (VObj
                [ ("metrics", VArr transformedMetrics);
                  ("message", VStr ("Relatório de métricas gerado com " +:+
                                    pretty (Z.of_nat (length transformedMetrics)) +:+
                                    " resultados."));
                  ("relatedTools", VArr (alerts_tool :: quotas_tools)) ])
          end
      end
  end.

(** *** [updateApiProxy] of [proxies] *)

(** A request sent through the API wrapper. *)
Inductive api_call : Type :=
| UpdateApiProxy (id payload : value).

Definition own_keys (v : value) : list string :=
  match v with
  | VObj fields => List.map fst fields
  | _ => []
  end.

Definition nothing_to_update : value :=
  VObj [("message", VStr "Nenhum campo fornecido para atualização. Nenhuma ação foi tomada.")].

(** The answer built from the proxy the gateway returns. *)
Definition updated_report (id updatedProxy : value) : settled :=
  if nullish updatedProxy
  then Rejected (cannot_read updatedProxy "name")
  else
    match ToString (get_prop updatedProxy "name") with
    | None => Rejected cannot_convert
    | Some shown =>
        Fulfilled (VObj
          [ ("message", VStr ("Proxy de API '" +:+ shown +:+ "' atualizado com sucesso."));
            ("apiProxy", updatedProxy);
            ("relatedTools",
             VArr [VObj [ ("tool_name", VStr "get_api_proxy");
                          ("description", VStr "Ver os detalhes atualizados do proxy.");
                          ("parameters",
                           VArr [VObj [("name", VStr "id"); ("value", id)]]) ]]) ])
    end.

(** [catch (error) { console.error(`... ${id}:`, error); throw error; }]:
    the exception is thrown again, after a diagnostic whose template
    literal converts [id]. *)
Definition rethrow_logged (id : value) (attempt : settled) : settled :=
  match attempt with
  | Fulfilled result => Fulfilled result
  | Rejected error =>
      match ToString id with
      | None => Rejected cannot_convert
      | Some _ => Rejected error
      end
  end.

(** [api_updateApiProxy] is the call [api.updateApiProxy(id, payload)], as
    it settles; the result lists the calls made. *)
Definition updateApiProxy (api_updateApiProxy : value → value → settled)
    (id name path apiId : value) : list api_call * settled :=
  let payload := removeEmptyValues (VObj [("name", name); ("path", path); ("apiId", apiId)]) in
  if Nat.eqb (length (own_keys payload)) 0
  then ([], Fulfilled nothing_to_update)
  else
    ([UpdateApiProxy id payload],
     rethrow_logged id
       match api_updateApiProxy id payload with
       | Rejected e => Rejected e
       | Fulfilled updatedProxy => updated_report id updatedProxy
       end).

End Operations.

(** ** [main] and the constructor *)

Module Main.
Import Js Server.

(** What [main] reads of the process. *)
Record Process : Type := {
  TRANSPORT_MODE : option string;   (* process.env.TRANSPORT_MODE *)
  argv : list string                (* process.argv *)
}.

Definition useStdio (p : Process) : bool :=
  match TRANSPORT_MODE p with
  | Some mode => String.eqb mode "stdio"
  | None => false
  end
  || existsb (String.eqb "--stdio") (argv p)
  || existsb (String.eqb "-s") (argv p).

Definition transportMode (p : Process) : string :=
  if useStdio p then "stdio" else "http".

(** The methods of the tools [tools()] lists in [src/tools.ts], in order. *)
Definition tools : list string :=
  [ "list_topology"; "get_mcp_server_time"; "get_instance_traffic";
    "get_service_traffic"; "get_instance_metrics_timeline";
    "search_traffic_events"; "get_traffic_event_details";
    "get_traffic_event_payload"; "get_traffic_event_trace";
    "list_organizations"; "get_organization"; "create_organization";
    "update_organization"; "delete_organization"; "list_users"; "get_user";
    "create_user"; "update_user"; "delete_user"; "list_applications";
    "get_application"; "get_api_keys_for_application"; "create_api_key";
    "get_oauth_credentials_for_application"; "create_oauth_credential";
    "get_permissions_for_application"; "list_api_proxies"; "get_api_proxy";
    "create_api_proxy"; "update_api_proxy"; "delete_api_proxy"; "publish_api";
    "unpublish_api"; "deprecate_api"; "list_backend_apis";
    "import_backend_api_from_url"; "delete_backend_api";
    "import_backend_api_from_file"; "list_api_access"; "grant_api_access";
    "revoke_api_access"; "list_alerts"; "update_alert_settings";
    "get_application_quotas"; "update_application_quotas"; "get_api_catalog";
    "upload_file_for_import" ].

End Main.

(** ** Vocabulary of the properties *)

Import Js Tools Server.

(** A value whose [method] property is the string [initialize]: an object
    with that field. *)
Definition has_initialize_method (v : value) : Prop :=
  ∃ fields, v = VObj fields ∧ assoc "method" fields = VStr "initialize".

(** The session [id] has been idle for longer than the timeout at [now]. *)
Definition stale (now : Z) (st : Registry) (id : string) : bool :=
  match sessionTimestamps st !! id with
  | Some ts => now - ts >? maxAge
  | None => false
  end.

(** The events of a sweep over the keys [ks] of a registry [st]. *)
Definition sweep_events (now : Z) (st : Registry) (ks : list string) : list event :=
  flat_map (λ k, if stale now st k then [DeleteTransport k; DeleteTimestamp k] else []) ks.

(** Both objects of the registry have the same own keys. *)
Definition consistent (st : Registry) : Prop :=
  dom (transports st) = dom (sessionTimestamps st).

(** In the trace [tr], transport [t] is closed before [id] leaves the
    registry. *)
Definition closed_before_removed (tr : list event) (t : Transport) (id : string) : Prop :=
  ∃ before after, tr = before ++ DeleteTransport id :: after ∧ Close t ∈ before.

(** The 400 answer to a session id that does not resolve. *)
Definition invalid_session_reply : list event :=
  [ WriteHead 400 [("Content-Type", "application/json")];
    End (JSON_stringify (VObj [("error", VStr "Invalid session ID");
                               ("message", VStr invalid_session_message)])) ].

(** The 400 answer to a POST that neither resumes nor initializes. *)
Definition invalid_request_reply : list event :=
  [ WriteHead 400 [("Content-Type", "application/json")];
    End (JSON_stringify
           (VObj [("error", VStr "Invalid request");
                  ("message", VStr "POST requests require a valid session ID or must be an initialize request.")])) ].

(** Reading a failure along a path of accesses, giving up with
    [undefined] where a step meets [null] or [undefined]. *)
Inductive access : Type :=
| Field (name : string)
| First.

Definition read_access (a : access) (v : value) : value :=
  match a with
  | Field name => get_prop v name
  | First => get_first v
  end.

Fixpoint follow (path : list access) (v : value) : value :=
  match path with
  | [] => v
  | a :: rest => if nullish v then VUndefined else follow rest (read_access a v)
  end.

(** [response.data.errors[0].message] of a failure. *)
Definition structured_message (error : value) : value :=
  follow [Field "response"; Field "data"; Field "errors"; First; Field "message"] error.

(** The message the handler is to report for a failure. *)
Definition reported_message (error : value) : value :=
  if truthy (structured_message error) then structured_message error
  else if truthy (get_prop error "message") then get_prop error "message"
  else VStr "An unknown error occurred.".

(** A value that a template literal can print: no object with an own
    [toString] property, directly or as a member of an array. *)
Fixpoint printable (v : value) : bool :=
  match v with
  | VObj fields => negb (has_own "toString" fields)
  | VArr items => forallb (λ item, nullish item || printable item) items
  | _ => true
  end.




(** ** Vocabulary of further properties *)

Import Utils Operations Main Http.

(** One thing that happens to the registry: a request is served, the
    reaper sweeps, or the [onclose] callback of some session runs. *)
Inductive step (st : Registry) : Registry → Prop :=
| step_request (env : Env) (req : Request) : step st (serve env req st).1
| step_sweep (now : Z) : step st (state_of (cleanupOldSessions now st))
| step_onclose (id : string) : step st (state_of (onclose id st)).

(** The registries the server can be in, starting empty. *)
Definition reachable (st : Registry) : Prop := rtc step empty_registry st.

(** Every transport is stored under the UUID it was created with, carries
    that id, and has a timestamp beside it. *)
Definition well_keyed (st : Registry) : Prop :=
  ∀ id t,
    transports st !! id = Some t →
    (∃ bits, id = randomUUID bits) ∧
    t = {| generator := id; sessionId := Some id |} ∧
    is_Some (sessionTimestamps st !! id).

(** The events that settle a request: the response is ended, or the
    request is handed to a transport. *)
Definition settles (e : event) : bool :=
  match e with
  | End _ | HandleRequest _ _ => true
  | _ => false
  end.

(** No empty member at any depth, and no [__proto__] key. *)
Fixpoint compact (v : value) : bool :=
  match v with
  | VArr items => forallb (λ item, negb (is_empty item) && compact item) items
  | VObj fields =>
      forallb (λ kv, negb (is_empty kv.2) && assignable kv.1 && compact kv.2) fields
  | _ => true
  end.

(** * Properties *)

(** ** Session ids *)

Lemma hex_length (digits : nat) (n : N) (acc : string) :
  String.length (hex digits n acc) = (digits + String.length acc)%nat.
Proof.
  revert n acc. induction digits as [|d IH]; intros n acc; simpl.
  - reflexivity.
  - rewrite IH. simpl. lia.
Qed.

Lemma randomUUID_length (bits : N) : String.length (randomUUID bits) = 36%nat.
Proof.
  unfold randomUUID. cbv zeta.
  repeat (rewrite hex_length || cbn [String.length]). reflexivity.
Qed.






Lemma length_36_plain (s : string) :
  String.length s = 36%nat → inherited s = false ∧ s ≠ "" ∧ s ≠ "__proto__".
Proof.
  intros Hlen. split; [|split].
  - unfold inherited, Object_prototype_names. cbn [existsb].
    repeat match goal with
    | |- context [String.eqb s ?k] =>
        destruct (String.eqb_spec s k) as [->|_]; [discriminate Hlen|]
    end.
    reflexivity.
  - intros ->. discriminate Hlen.
  - intros ->. discriminate Hlen.
Qed.

Lemma randomUUID_plain (bits : N) : inherited (randomUUID bits) = false.
Proof. apply length_36_plain, randomUUID_length. Qed.

Lemma randomUUID_nonempty (bits : N) : String.eqb (randomUUID bits) "" = false.
Proof.
  apply String.eqb_neq. apply (length_36_plain _ (randomUUID_length bits)).
Qed.

Lemma randomUUID_not_proto (bits : N) : String.eqb (randomUUID bits) "__proto__" = false.
Proof.
  apply String.eqb_neq. apply (length_36_plain _ (randomUUID_length bits)).
Qed.

(** A key that [Object.prototype] does not define is found exactly when it
    is an own property. *)
Lemma js_get_plain {V : Type} (o : gmap string V) (k : string) :
  inherited k = false →
  js_get o k = match o !! k with Some v => Own v | None => Missing end.
Proof. intros Hk. unfold js_get. rewrite Hk. reflexivity. Qed.

Lemma js_set_plain {V : Type} (o : gmap string V) (k : string) (v : V) :
  String.eqb k "__proto__" = false → js_set o k v = <[k := v]> o.
Proof. intros Hk. unfold js_set. rewrite Hk. reflexivity. Qed.

(** ** Reading the session id *)

Lemma variations_eq :
  variations = [ "mcp-session-id"; "mcp-session-id"; "MCP-SESSION-ID";
                 "mcp-session-id"; "mcp-session-id"; "MCP-SESSION-ID" ].
Proof. reflexivity. Qed.

(** The six variations name two keys only. *)
Lemma getSessionIdFromHeaders_two_keys (h : gmap string string) :
  getSessionIdFromHeaders h = first_header h ["mcp-session-id"; "MCP-SESSION-ID"].
Proof.
  unfold getSessionIdFromHeaders. rewrite variations_eq. cbn [first_header].
  destruct (h !! "mcp-session-id") as [v|]; [destruct (String.eqb v "")|];
    destruct (h !! "MCP-SESSION-ID") as [w|]; try destruct (String.eqb w ""); reflexivity.
Qed.

Lemma first_header_truthy (h : gmap string string) (names : list string) (v : string) :
  first_header h names = Some v → String.eqb v "" = false.
Proof.
  induction names as [|n rest IH]; cbn [first_header]; [discriminate|].
  destruct (h !! n) as [w|]; [|exact IH].
  destruct (String.eqb w "") eqn:E; [exact IH|].
  intros [= <-]. exact E.
Qed.

Lemma getSessionIdFromHeaders_truthy (h : gmap string string) (v : string) :
  getSessionIdFromHeaders h = Some v → String.eqb v "" = false.
Proof. apply first_header_truthy. Qed.

(** A header map with no session-id header under any casing yields no
    session id. *)
Lemma getSessionIdFromHeaders_absent (h : gmap string string) :
  (∀ k, toLowerCase k = "mcp-session-id" → h !! k = None) →
  getSessionIdFromHeaders h = None.
Proof.
  intros Habs. rewrite getSessionIdFromHeaders_two_keys. cbn [first_header].
  rewrite (Habs "mcp-session-id" eq_refl), (Habs "MCP-SESSION-ID" eq_refl).
  reflexivity.
Qed.

(** On an object written by hand the reader looks under the lower-case and
    the upper-case spelling of the name and nowhere else. *)
Example getSessionIdFromHeaders_mixed_case_missed :
  getSessionIdFromHeaders {[ "mcp-session-id" := "abc" ]} = Some "abc" ∧
  getSessionIdFromHeaders {[ "MCP-SESSION-ID" := "abc" ]} = Some "abc" ∧
  getSessionIdFromHeaders {[ "Mcp-Session-Id" := "abc" ]} = None.
Proof. repeat split; vm_compute; reflexivity. Qed.



Example session_header_mixed_case_found :
  getSessionIdFromHeaders (incoming_headers [("Host", "localhost"); ("Mcp-Session-Id", "abc")])
    = Some "abc".
Proof. vm_compute. reflexivity. Qed.


(** ** Classifying the body *)

Lemma check_spec (data : value) : check data = true ↔ has_initialize_method data.
Proof.
  unfold check, has_initialize_method, opt_prop. split.
  - destruct data as [| |b|n|s|xs|fields]; cbn; try discriminate.
    intros H. exists fields. split; [reflexivity|].
    destruct (assoc "method" fields) as [| |b|n|s|xs|fs]; try discriminate.
    apply String.eqb_eq in H. by subst.
  - intros (fields & -> & Hm). cbn. rewrite Hm. reflexivity.
Qed.

(** C10: an array body is an initialize request exactly when one of its
    elements has method [initialize]; any other body exactly when the body
    itself has. *)
Theorem isInitializeRequest_spec :
  (∀ xs : list value,
      isInitializeRequest (VArr xs) = true ↔ ∃ x, x ∈ xs ∧ has_initialize_method x) ∧
  (∀ body : value,
      (∀ xs, body ≠ VArr xs) →
      (isInitializeRequest body = true ↔ has_initialize_method body)).
Proof.
  split.
  - intros xs. cbn [isInitializeRequest]. rewrite existsb_exists. split.
    + intros (x & Hin & Hc). exists x. split.
      * by apply list_elem_of_In.
      * by apply check_spec.
    + intros (x & Hin & Hc). exists x. split.
      * by apply list_elem_of_In.
      * by apply check_spec.
  - intros body Hna.
    destruct body as [| |b|n|s|xs|fields]; cbn [isInitializeRequest];
      try apply check_spec.
    exfalso. by apply (Hna xs).
Qed.

Lemma isInitializeRequest_spec_witness :
  isInitializeRequest (VObj [("jsonrpc", VStr "2.0"); ("method", VStr "initialize")]) = true ↔
  has_initialize_method (VObj [("jsonrpc", VStr "2.0"); ("method", VStr "initialize")]).
Proof.
  apply (proj2 isInitializeRequest_spec). intros xs. discriminate.
Defined.

(** ** The dispatcher *)

Section Dispatch.

Variables (st : Registry) (env : Env) (req : Request) (jsonBody : value).

(** The body of the request is empty or parses. *)
Hypothesis Hbody : jsonBody_of (body req) = Some jsonBody.

Local Ltac dispatch :=
  unfold handleRequest, parse, bind; rewrite Hbody.

(** C1: a POST with no session id whose body is not an initialize request
    is answered with 400 Invalid request; the registry is unchanged and the
    only effects are the two writes to the response: no UUID is drawn, no
    transport is created, nothing is stored. *)
Theorem post_without_session_rejected :
  method req = "POST" →
  getSessionIdFromHeaders (headers req) = None →
  isInitializeRequest jsonBody = false →
  handleRequest env req st = (Returned (), st, invalid_request_reply) ∧
  serve env req st = (st, invalid_request_reply).
Proof.
  intros Hm Hsid Hinit.
  assert (handleRequest env req st = (Returned (), st, invalid_request_reply)) as Hrun.
  { dispatch. rewrite Hm, Hsid. cbn. rewrite Hinit. reflexivity. }
  split; [exact Hrun|]. unfold serve. rewrite Hrun. reflexivity.
Qed.


(** A request under a session id that is no own key of [transports] and no
    member of [Object.prototype] gets the 400 Invalid session ID answer and
    changes nothing. *)
Lemma unknown_session_rejected (id : string) :
  method req = "GET" ∨ method req = "POST" →
  getSessionIdFromHeaders (headers req) = Some id →
  inherited id = false →
  transports st !! id = None →
  handleRequest env req st = (Returned (), st, invalid_session_reply) ∧
  serve env req st = (st, invalid_session_reply).
Proof.
  intros Hm Hsid Hplain Habsent.
  assert (handleRequest env req st = (Returned (), st, invalid_session_reply)) as Hrun.
  { dispatch. rewrite Hsid.
    destruct Hm as [-> | ->]; cbn -[js_get];
      rewrite (js_get_plain _ _ Hplain), Habsent; reflexivity. }
  split; [exact Hrun|]. unfold serve. rewrite Hrun. reflexivity.
Qed.

(** A GET under a session id that resolves is handed to the transport; the
    registry is not written. *)
Lemma get_attaches (id : string) (t : Transport) :
  method req = "GET" →
  getSessionIdFromHeaders (headers req) = Some id →
  transports st !! id = Some t →
  handleRequest env req st = (Returned (), st, [HandleRequest t None]).
Proof.
  intros Hm Hsid Ht. dispatch. rewrite Hsid, Hm. cbn -[js_get].
  unfold js_get. rewrite Ht. reflexivity.
Qed.

(** A POST under a session id that resolves records the current time and
    is handed to the transport. *)
Lemma post_continues (id : string) (t : Transport) :
  method req = "POST" →
  getSessionIdFromHeaders (headers req) = Some id →
  transports st !! id = Some t →
  handleRequest env req st =
    (Returned (),
     {| transports := transports st;
        sessionTimestamps := js_set (sessionTimestamps st) id (now env) |},
     [SetTimestamp id (now env); HandleRequest t (Some jsonBody)]).
Proof.
  intros Hm Hsid Ht. dispatch. rewrite Hsid, Hm. cbn -[js_get js_set].
  unfold js_get. rewrite Ht. cbn -[js_set]. rewrite Ht. reflexivity.
Qed.

End Dispatch.

Lemma post_without_session_rejected_witness :
  let req := {| method := "POST"; headers := ∅;
                body := Json (VObj [("method", VStr "tools/list")]) |} in
  let env := {| now := 1000; random := 7 |} in
  handleRequest env req empty_registry = (Returned (), empty_registry, invalid_request_reply) ∧
  serve env req empty_registry = (empty_registry, invalid_request_reply).
Proof.
  intros req env.
  apply (post_without_session_rejected empty_registry env req
           (VObj [("method", VStr "tools/list")])); reflexivity.
Defined.


(** The id printed from the bits 7. *)
Example randomUUID_7 : randomUUID 7 = "00000000-0000-4000-8000-000000000007".
Proof. reflexivity. Qed.


(** ** Removal and the reaper *)

Lemma onclose_run (id : string) (st : Registry) :
  onclose id st =
    (Returned (),
     {| transports := delete id (transports st);
        sessionTimestamps := delete id (sessionTimestamps st) |},
     [DeleteTransport id; DeleteTimestamp id]).
Proof. reflexivity. Qed.

Lemma cleanup_session_run (now : Z) (k : string) (st : Registry) :
  cleanup_session now k st =
    if stale now st k
    then (Returned (),
          {| transports := delete k (transports st);
             sessionTimestamps := delete k (sessionTimestamps st) |},
          [DeleteTransport k; DeleteTimestamp k])
    else (Returned (), st, []).
Proof.
  unfold cleanup_session, stale, bind, read, js_get. cbn -[inherited].
  destruct (sessionTimestamps st !! k) as [ts|].
  - destruct (now - ts >? maxAge); reflexivity.
  - destruct (inherited k); reflexivity.
Qed.

Lemma sweep_events_ext (now : Z) (st st' : Registry) (ks : list string) :
  (∀ k, k ∈ ks → stale now st' k = stale now st k) →
  sweep_events now st' ks = sweep_events now st ks.
Proof.
  unfold sweep_events. induction ks as [|k rest IH]; intros Hext; cbn; [reflexivity|].
  rewrite (Hext k) by left. f_equal. apply IH. intros k' Hk'. apply Hext. by right.
Qed.

Lemma elem_of_cons_bool (id k : string) (rest : list string) :
  bool_decide (id ∈ k :: rest) = bool_decide (id = k) || bool_decide (id ∈ rest).
Proof.
  apply eq_true_iff_eq.
  rewrite orb_true_iff, !bool_decide_eq_true. apply elem_of_cons.
Qed.

Lemma forEach_cleanup (now : Z) (ks : list string) :
  NoDup ks →
  ∀ st : Registry,
    let r := forEach ks (cleanup_session now) st in
    result_of r = Returned () ∧
    (∀ id, transports (state_of r) !! id =
             if bool_decide (id ∈ ks) && stale now st id then None
             else transports st !! id) ∧
    (∀ id, sessionTimestamps (state_of r) !! id =
             if bool_decide (id ∈ ks) && stale now st id then None
             else sessionTimestamps st !! id) ∧
    trace_of r = sweep_events now st ks.
Proof.
  induction ks as [|k rest IH]; intros Hnd st.
  - cbn. repeat split; reflexivity.
  - apply NoDup_cons in Hnd as [Hk Hrest].
    cbn [forEach]. unfold bind. rewrite cleanup_session_run.
    destruct (stale now st k) eqn:Hst.
    + set (st1 := {| transports := delete k (transports st);
                     sessionTimestamps := delete k (sessionTimestamps st) |}).
      assert (Hother : ∀ id, id ∈ rest → stale now st1 id = stale now st id).
      { intros id Hid. unfold stale, st1. cbn.
        rewrite lookup_delete_ne; [reflexivity|]. intros ->. contradiction. }
      destruct (IH Hrest st1) as (Hres & Htr & Hts & Hev).
      destruct (forEach rest (cleanup_session now) st1) as [[r st2] tr2] eqn:Hrun.
      unfold result_of, state_of, trace_of in *. cbn [fst snd] in *.
      repeat split.
      * exact Hres.
      * intros id. rewrite Htr, elem_of_cons_bool.
        destruct (decide (id = k)) as [->|Hid].
        -- rewrite (bool_decide_eq_false_2 (k ∈ rest)) by exact Hk.
           rewrite (bool_decide_eq_true_2 (k = k)) by reflexivity.
           cbn. rewrite Hst. apply lookup_delete_eq.
        -- rewrite (bool_decide_eq_false_2 (id = k)) by exact Hid.
           cbn [orb]. case_bool_decide as Hin; cbn [andb].
           ++ rewrite Hother by exact Hin.
              destruct (stale now st id); [reflexivity|].
              by apply lookup_delete_ne.
           ++ by apply lookup_delete_ne.
      * intros id. rewrite Hts, elem_of_cons_bool.
        destruct (decide (id = k)) as [->|Hid].
        -- rewrite (bool_decide_eq_false_2 (k ∈ rest)) by exact Hk.
           rewrite (bool_decide_eq_true_2 (k = k)) by reflexivity.
           cbn. rewrite Hst. apply lookup_delete_eq.
        -- rewrite (bool_decide_eq_false_2 (id = k)) by exact Hid.
           cbn [orb]. case_bool_decide as Hin; cbn [andb].
           ++ rewrite Hother by exact Hin.
              destruct (stale now st id); [reflexivity|].
              by apply lookup_delete_ne.
           ++ by apply lookup_delete_ne.
      * rewrite Hev. unfold sweep_events at 2. cbn [flat_map]. rewrite Hst.
        cbn. do 2 f_equal. by apply sweep_events_ext.
    + destruct (IH Hrest st) as (Hres & Htr & Hts & Hev).
      destruct (forEach rest (cleanup_session now) st) as [[r st2] tr2] eqn:Hrun.
      unfold result_of, state_of, trace_of in *. cbn [fst snd] in *.
      repeat split.
      * exact Hres.
      * intros id. rewrite Htr, elem_of_cons_bool.
        destruct (decide (id = k)) as [->|Hid].
        -- rewrite (bool_decide_eq_false_2 (k ∈ rest)) by exact Hk.
           rewrite Hst, !andb_false_r. reflexivity.
        -- rewrite (bool_decide_eq_false_2 (id = k)) by exact Hid. reflexivity.
      * intros id. rewrite Hts, elem_of_cons_bool.
        destruct (decide (id = k)) as [->|Hid].
        -- rewrite (bool_decide_eq_false_2 (k ∈ rest)) by exact Hk.
           rewrite Hst, !andb_false_r. reflexivity.
        -- rewrite (bool_decide_eq_false_2 (id = k)) by exact Hid. reflexivity.
      * rewrite Hev. unfold sweep_events at 2. cbn [flat_map]. rewrite Hst.
        reflexivity.
Qed.

Lemma Object_keys_NoDup {V : Type} (o : gmap string V) : NoDup (Object_keys o).
Proof. apply NoDup_fst_map_to_list. Qed.

Lemma elem_of_Object_keys {V : Type} (o : gmap string V) (k : string) :
  k ∈ Object_keys o ↔ is_Some (o !! k).
Proof.
  unfold Object_keys. rewrite list_elem_of_fmap. split.
  - intros ([k' v] & -> & Hin). apply elem_of_map_to_list in Hin. by exists v.
  - intros [v Hv]. exists (k, v). split; [reflexivity|]. by apply elem_of_map_to_list.
Qed.

(** What a sweep at time [now] leaves: it never throws, every stale id is
    gone from both objects, every other entry is as before, and the events
    are the two deletions of each stale id. *)
Lemma cleanupOldSessions_spec (now : Z) (st : Registry) :
  let r := cleanupOldSessions now st in
  result_of r = Returned () ∧
  (∀ id, transports (state_of r) !! id =
           if stale now st id then None else transports st !! id) ∧
  (∀ id, sessionTimestamps (state_of r) !! id =
           if stale now st id then None else sessionTimestamps st !! id) ∧
  trace_of r = sweep_events now st (Object_keys (sessionTimestamps st)).
Proof.
  unfold cleanupOldSessions, bind, read.
  destruct (forEach_cleanup now _ (Object_keys_NoDup (sessionTimestamps st)) st)
    as (Hres & Htr & Hts & Hev).
  destruct (forEach (Object_keys (sessionTimestamps st)) (cleanup_session now) st)
    as [[r st2] tr2] eqn:Hrun.
  unfold result_of, state_of, trace_of in *. cbn [fst snd] in *.
  assert (Hkeys : ∀ id, stale now st id = true →
            bool_decide (id ∈ Object_keys (sessionTimestamps st)) = true).
  { intros id Hid. apply bool_decide_eq_true_2, elem_of_Object_keys.
    unfold stale in Hid. destruct (sessionTimestamps st !! id); [eauto|discriminate]. }
  repeat split.
  - exact Hres.
  - intros id. rewrite Htr. destruct (stale now st id) eqn:E.
    + by rewrite Hkeys.
    + by rewrite andb_false_r.
  - intros id. rewrite Hts. destruct (stale now st id) eqn:E.
    + by rewrite Hkeys.
    + by rewrite andb_false_r.
  - exact Hev.
Qed.

Lemma sweep_events_no_close (now : Z) (st : Registry) (ks : list string) (e : event) :
  e ∈ sweep_events now st ks → ∃ id, e = DeleteTransport id ∨ e = DeleteTimestamp id.
Proof.
  unfold sweep_events. induction ks as [|k rest IH]; cbn [flat_map].
  - intros H. by apply elem_of_nil in H.
  - intros [H|H]%elem_of_app; [|by apply IH].
    destruct (stale now st k).
    + exists k. apply elem_of_cons in H as [->|H]; [by left|].
      apply elem_of_cons in H as [->|H]; [by right|].
      by apply elem_of_nil in H.
    + by apply elem_of_nil in H.
Qed.

Lemma sweep_events_deletes (now : Z) (st : Registry) (ks : list string) (id : string) :
  id ∈ ks → stale now st id = true →
  ∃ before after,
    sweep_events now st ks = before ++ [DeleteTransport id; DeleteTimestamp id] ++ after.
Proof.
  unfold sweep_events. induction ks as [|k rest IH]; cbn [flat_map].
  - intros H. by apply elem_of_nil in H.
  - intros [->|Hin]%elem_of_cons Hst.
    + rewrite Hst. exists [], (sweep_events now st rest). reflexivity.
    + destruct (IH Hin Hst) as (before & after & ->).
      exists ((if stale now st k then [DeleteTransport k; DeleteTimestamp k] else [])
                ++ before), after.
      by rewrite <- app_assoc.
Qed.

(** C3: a session whose last activity lies more than 30 minutes before a
    sweep is removed by that sweep from both objects of the registry, and a
    later GET or POST under its id is answered 400 Invalid session ID.
    In http mode the sweep is on a timer of 5 minutes. Session ids are the
    strings [randomUUID] prints. *)
Theorem sweep_evicts_idle_session
    (st : Registry) (sweep_time : Z) (bits : N) (lastActivity : Z) :
  let id := randomUUID bits in
  sessionTimestamps st !! id = Some lastActivity →
  sweep_time - lastActivity > 30 * 60 * 1000 →
  let swept := cleanupOldSessions sweep_time st in
  result_of swept = Returned () ∧
  transports (state_of swept) !! id = None ∧
  sessionTimestamps (state_of swept) !! id = None ∧
  (∀ (env : Env) (req : Request) (jsonBody : value),
      method req = "GET" ∨ method req = "POST" →
      jsonBody_of (body req) = Some jsonBody →
      getSessionIdFromHeaders (headers req) = Some id →
      serve env req (state_of swept) = (state_of swept, invalid_session_reply)) ∧
  reaper_timer "http" = Some (5 * 60 * 1000, cleanupOldSessions).
Proof.
  intros id Hts Hold swept.
  destruct (cleanupOldSessions_spec sweep_time st) as (Hres & Htr & Htss & _).
  fold swept in Hres, Htr, Htss.
  assert (Hstale : stale sweep_time st id = true).
  { unfold stale. rewrite Hts. apply Z.gtb_lt. unfold maxAge. lia. }
  assert (Hgone : transports (state_of swept) !! id = None).
  { by rewrite Htr, Hstale. }
  repeat split.
  - exact Hres.
  - exact Hgone.
  - by rewrite Htss, Hstale.
  - intros env req jsonBody Hm Hbody Hsid.
    apply (unknown_session_rejected _ env req jsonBody Hbody id Hm Hsid);
      [apply randomUUID_plain | exact Hgone].
Qed.

Lemma sweep_evicts_idle_session_witness :
  let id := "00000000-0000-4000-8000-000000000007" in
  let t := {| generator := id; sessionId := Some id |} in
  let st := {| transports := {[ id := t ]}; sessionTimestamps := {[ id := 1000 ]} |} in
  let swept := cleanupOldSessions 1801001 st in
  result_of swept = Returned () ∧
  transports (state_of swept) !! id = None ∧
  sessionTimestamps (state_of swept) !! id = None ∧
  (∀ (env : Env) (req : Request) (jsonBody : value),
      method req = "GET" ∨ method req = "POST" →
      jsonBody_of (body req) = Some jsonBody →
      getSessionIdFromHeaders (headers req) = Some id →
      serve env req (state_of swept) = (state_of swept, invalid_session_reply)) ∧
  reaper_timer "http" = Some (5 * 60 * 1000, cleanupOldSessions).
Proof.
  intros id t st swept.
  apply (sweep_evicts_idle_session st 1801001 7 1000).
  - vm_compute. reflexivity.
  - lia.
Defined.

(** C5 does not hold as stated: the sweep below evicts its one idle session and
    its trace holds the two deletions only; the transport is not closed
    before the removal (nor at all). *)
Lemma sweep_removes_without_close :
  let id := "00000000-0000-4000-8000-000000000007" in
  let t := {| generator := id; sessionId := Some id |} in
  let st := {| transports := {[ id := t ]}; sessionTimestamps := {[ id := 1000 ]} |} in
  let swept := cleanupOldSessions 1801001 st in
  transports st !! id = Some t ∧
  stale 1801001 st id = true ∧
  transports (state_of swept) !! id = None ∧
  trace_of swept = [DeleteTransport id; DeleteTimestamp id] ∧
  ¬ closed_before_removed (trace_of swept) t id.
Proof.
  cbv zeta. repeat split; try (vm_compute; reflexivity).
  intros (before & after & Htrace & Hclose).
  assert (Hall : ∀ e, e ∈ before → ∃ k, e = DeleteTransport k ∨ e = DeleteTimestamp k).
  { intros e He.
    assert (He' : e ∈ before ++ DeleteTransport "00000000-0000-4000-8000-000000000007" :: after)
      by (apply elem_of_app; by left).
    rewrite <- Htrace in He'.
    destruct (cleanupOldSessions_spec 1801001
      {| transports := {[ "00000000-0000-4000-8000-000000000007" :=
                            {| generator := "00000000-0000-4000-8000-000000000007";
                               sessionId := Some "00000000-0000-4000-8000-000000000007" |} ]};
         sessionTimestamps := {[ "00000000-0000-4000-8000-000000000007" := 1000 ]} |})
      as (_ & _ & _ & Hev).
    rewrite Hev in He'. by apply sweep_events_no_close in He'. }
  destruct (Hall _ Hclose) as (k & [Hk|Hk]); discriminate Hk.
Qed.

(** C5, amended: a sweep never closes a transport; for every session it
    evicts it deletes the id from [transports] and next from
    [sessionTimestamps], and that is all it does. *)
Theorem sweep_deletes_only
    (st : Registry) (sweep_time : Z) (id : string) (lastActivity : Z) :
  sessionTimestamps st !! id = Some lastActivity →
  sweep_time - lastActivity > maxAge →
  let swept := cleanupOldSessions sweep_time st in
  (∀ t, Close t ∉ trace_of swept) ∧
  (∃ before after,
      trace_of swept = before ++ [DeleteTransport id; DeleteTimestamp id] ++ after) ∧
  transports (state_of swept) !! id = None ∧
  sessionTimestamps (state_of swept) !! id = None.
Proof.
  intros Hts Hold swept.
  destruct (cleanupOldSessions_spec sweep_time st) as (_ & Htr & Htss & Hev).
  fold swept in Htr, Htss, Hev.
  assert (Hstale : stale sweep_time st id = true).
  { unfold stale. rewrite Hts. apply Z.gtb_lt. lia. }
  repeat split.
  - intros t Hin. rewrite Hev in Hin.
    destruct (sweep_events_no_close _ _ _ _ Hin) as (k & [Hk|Hk]); discriminate Hk.
  - rewrite Hev. apply sweep_events_deletes; [|exact Hstale].
    apply elem_of_Object_keys. eauto.
  - by rewrite Htr, Hstale.
  - by rewrite Htss, Hstale.
Qed.

Lemma sweep_deletes_only_witness :
  let id := "00000000-0000-4000-8000-000000000007" in
  let t := {| generator := id; sessionId := Some id |} in
  let st := {| transports := {[ id := t ]}; sessionTimestamps := {[ id := 1000 ]} |} in
  let swept := cleanupOldSessions 1801001 st in
  (∀ t, Close t ∉ trace_of swept) ∧
  (∃ before after,
      trace_of swept = before ++ [DeleteTransport id; DeleteTimestamp id] ++ after) ∧
  transports (state_of swept) !! id = None ∧
  sessionTimestamps (state_of swept) !! id = None.
Proof.
  intros id t st swept.
  apply (sweep_deletes_only st 1801001 id 1000).
  - vm_compute. reflexivity.
  - unfold maxAge. lia.
Defined.

(** C7: removing a session id never throws; removing it again, or removing
    an id that is absent, changes nothing; and after the removal a lookup
    of the id finds nothing in either object. Session ids are the strings
    [randomUUID] prints; the two deletions are those of the [onclose]
    callback and of the reaper alike. *)
Theorem removal_idempotent (st : Registry) (bits : N) :
  let id := randomUUID bits in
  let removed := state_of (onclose id st) in
  result_of (onclose id st) = Returned () ∧
  result_of (onclose id removed) = Returned () ∧
  state_of (onclose id removed) = removed ∧
  (transports st !! id = None ∧ sessionTimestamps st !! id = None →
   state_of (onclose id st) = st) ∧
  js_get (transports removed) id = Missing ∧
  js_get (sessionTimestamps removed) id = Missing.
Proof.
  intros id removed. subst removed. rewrite !onclose_run.
  unfold result_of, state_of. cbn [fst snd transports sessionTimestamps].
  repeat split.
  - f_equal; apply delete_delete_eq.
  - intros [Ht Hs]. destruct st as [tr ts]. cbn in *.
    f_equal; by apply delete_id.
  - rewrite js_get_plain by apply randomUUID_plain. by rewrite lookup_delete_eq.
  - rewrite js_get_plain by apply randomUUID_plain. by rewrite lookup_delete_eq.
Qed.

(** A second sweep at the same time finds nothing left to remove. *)
Lemma cleanupOldSessions_idempotent (now : Z) (st : Registry) :
  let once := state_of (cleanupOldSessions now st) in
  state_of (cleanupOldSessions now once) = once.
Proof.
  intros once.
  destruct (cleanupOldSessions_spec now st) as (_ & Htr & Hts & _).
  destruct (cleanupOldSessions_spec now once) as (_ & Htr' & Hts' & _).
  fold once in Htr, Hts.
  assert (Hfresh : ∀ id, stale now once id = false).
  { intros id. unfold stale at 1. rewrite Hts. unfold stale.
    destruct (sessionTimestamps st !! id) as [ts|]; [|reflexivity].
    destruct (now - ts >? maxAge) eqn:E; [reflexivity|exact E]. }
  destruct (state_of (cleanupOldSessions now once)) as [tr2 ts2].
  destruct once as [tr1 ts1]. cbn in *. f_equal; apply map_eq; intros id.
  - by rewrite Htr', Hfresh.
  - by rewrite Hts', Hfresh.
Qed.

(** ** Requests under a session id *)

(** C4 (code defect): a GET under a session id that resolves is handed to
    the transport and leaves [sessionTimestamps] as it was; only the POST
    path writes the current time. Here the session was last active at 1000
    and the request arrives at 5000. *)
Theorem get_leaves_lastActivity :
  let id := "00000000-0000-4000-8000-000000000007" in
  let t := {| generator := id; sessionId := Some id |} in
  let st := {| transports := {[ id := t ]}; sessionTimestamps := {[ id := 1000 ]} |} in
  let env := {| now := 5000; random := 0 |} in
  let get := {| method := "GET"; headers := {[ "mcp-session-id" := id ]}; body := Empty |} in
  let post := {| method := "POST"; headers := {[ "mcp-session-id" := id ]};
                 body := Json (VObj [("method", VStr "tools/list")]) |} in
  serve env get st = (st, [HandleRequest t None]) ∧
  sessionTimestamps (serve env get st).1 !! id = Some 1000 ∧
  sessionTimestamps (serve env post st).1 !! id = Some 5000.
Proof. cbv zeta. repeat split; vm_compute; reflexivity. Qed.

(** ** Key sets of the two objects *)

Lemma inherited_proto (id : string) :
  inherited id = false → String.eqb id "__proto__" = false.
Proof.
  unfold inherited, Object_prototype_names. cbn [existsb].
  destruct (String.eqb id "__proto__"); [|reflexivity].
  rewrite !orb_true_r. intros H. exact H.
Qed.

Lemma onclose_consistent (id : string) (st : Registry) :
  consistent st → consistent (state_of (onclose id st)).
Proof.
  unfold consistent. rewrite onclose_run. unfold state_of. cbn.
  intros H. by rewrite !dom_delete_L, H.
Qed.

Lemma cleanupOldSessions_consistent (now : Z) (st : Registry) :
  consistent st → consistent (state_of (cleanupOldSessions now st)).
Proof.
  unfold consistent. intros H.
  destruct (cleanupOldSessions_spec now st) as (_ & Htr & Hts & _).
  apply set_eq. intros id. rewrite !elem_of_dom, Htr, Hts.
  destruct (stale now st id).
  - split; intros [? ?]; discriminate.
  - rewrite <- !elem_of_dom, H. reflexivity.
Qed.

(** Requests keep the key sets equal as long as the session-id header does
    not name a member of [Object.prototype]. *)
Lemma serve_consistent (env : Env) (req : Request) (st : Registry) :
  (∀ id, getSessionIdFromHeaders (headers req) = Some id → inherited id = false) →
  consistent st → consistent (serve env req st).1.
Proof.
  unfold consistent. intros Hplain Hdom.
  unfold serve, handleRequest, parse, bind.
  destruct (jsonBody_of (body req)) as [jsonBody|]; [|exact Hdom].
  destruct (getSessionIdFromHeaders (headers req)) as [id|] eqn:Hsid.
  - pose proof (Hplain id eq_refl) as Hid.
    destruct (String.eqb (method req) "GET"); [|destruct (String.eqb (method req) "POST")];
      cbn -[js_get js_set]; try exact Hdom.
    + rewrite (js_get_plain _ _ Hid). destruct (transports st !! id); exact Hdom.
    + rewrite (js_get_plain _ _ Hid).
      destruct (transports st !! id) as [t|] eqn:Ht; [|exact Hdom].
      cbn -[js_get js_set]. rewrite (js_get_plain _ _ Hid), Ht.
      cbn -[js_set]. rewrite js_set_plain by apply inherited_proto, Hid.
      rewrite dom_insert_L, <- Hdom.
      assert (Hin : id ∈ dom (transports st)) by (apply elem_of_dom; eauto).
      apply set_eq. intros x. rewrite elem_of_union, elem_of_singleton.
      split; [by right | intros [->|Hx]; assumption].
  - destruct (String.eqb (method req) "GET"); [|destruct (String.eqb (method req) "POST")];
      cbn -[js_set randomUUID]; try exact Hdom.
    destruct (isInitializeRequest jsonBody); [|exact Hdom].
    cbn -[js_set randomUUID]. rewrite randomUUID_nonempty.
    cbn -[js_set randomUUID].
    rewrite !js_set_plain by apply randomUUID_not_proto.
    by rewrite !dom_insert_L, Hdom.
Qed.

(** C9 (code defect): the key sets can come apart. A POST whose session-id
    header is the word constructor finds [Object] under that key of
    [transports], writes the time into [sessionTimestamps] and then fails
    to call [handleRequest] on it: the timestamp object has gained a key
    that [transports] does not have. *)
Theorem prototype_key_breaks_consistency :
  let env := {| now := 1000; random := 0 |} in
  let req := {| method := "POST"; headers := {[ "mcp-session-id" := "constructor" ]};
                body := Empty |} in
  consistent empty_registry ∧
  serve env req empty_registry =
    ({| transports := ∅; sessionTimestamps := {[ "constructor" := 1000 ]} |},
     [ SetTimestamp "constructor" 1000;
       WriteHead 500 []; End (Some "Internal Server Error") ]) ∧
  ¬ consistent (serve env req empty_registry).1.
Proof.
  cbv zeta. split; [reflexivity|]. split; [vm_compute; reflexivity|].
  unfold consistent. intros H.
  assert (Hin : "constructor" ∈ dom (transports
            (serve {| now := 1000; random := 0 |}
               {| method := "POST"; headers := {[ "mcp-session-id" := "constructor" ]};
                  body := Empty |} empty_registry).1)).
  { rewrite H. apply elem_of_dom. vm_compute. eauto. }
  apply elem_of_dom in Hin. destruct Hin as [t Ht]. vm_compute in Ht. discriminate Ht.
Qed.

(** ** The tool handler *)

Lemma append_nil_r (s : string) : s +:+ "" = s.
Proof.
  induction s as [|c s IH]; [reflexivity|].
  change (String c (s +:+ "") = String c s). by rewrite IH.
Qed.

(** The JSON text of [{ error: message }]. *)
Lemma stringify_error_object (message : string) :
  JSON_stringify (VObj [("error", VStr message)]) =
    Some ("{" +:+ quote "error" +:+ ":" +:+ quote message +:+ "}").
Proof. cbn [JSON_stringify]. rewrite append_nil_r. reflexivity. Qed.

Lemma or_else_chain (a b c : value) :
  or_else (or_else a b) c = if truthy a then a else if truthy b then b else c.
Proof.
  unfold or_else. destruct (truthy a) eqn:Ha; [by rewrite Ha|reflexivity].
Qed.

Lemma optional_chain_follow (error : value) :
  nullish error = false →
  opt_prop (opt_first (opt_prop (opt_prop (get_prop error "response") "data") "errors"))
           "message"
  = structured_message error.
Proof.
  intros Hn. unfold structured_message. cbn [follow read_access]. rewrite Hn.
  unfold opt_prop, opt_first.
  set (response := get_prop error "response").
  destruct (nullish response) eqn:Hr; [reflexivity|].
  set (data := get_prop response "data").
  destruct (nullish data) eqn:Hd; [reflexivity|].
  set (errors := get_prop data "errors").
  destruct (nullish errors) eqn:He; [reflexivity|].
  destruct (nullish (get_first errors)) eqn:Hf; reflexivity.
Qed.

Lemma errorMessage_reported (error : value) :
  nullish error = false → errorMessage error = reported_message error.
Proof.
  intros Hn. unfold errorMessage, reported_message.
  rewrite or_else_chain, (optional_chain_follow _ Hn). reflexivity.
Qed.

Lemma reported_message_truthy (error : value) : truthy (reported_message error) = true.
Proof.
  unfold reported_message.
  destruct (truthy (structured_message error)) eqn:Hs; [exact Hs|].
  destruct (truthy (get_prop error "message")) eqn:Hm; [exact Hm|reflexivity].
Qed.

Lemma registerTools_handler (ops : operations) (tools : list string) (method : string)
    (h : value → outcome ToolResult) :
  (method, h) ∈ registerTools ops tools → h = handler ops method.
Proof.
  unfold registerTools. intros Hin. apply list_elem_of_fmap in Hin as (m & Heq & _).
  by inversion Heq.
Qed.

(** Induction over a value and the values inside it. *)
Lemma value_deep_ind (P : value → Prop) :
  P VUndefined → P VNull → (∀ b, P (VBool b)) → (∀ n, P (VNum n)) → (∀ s, P (VStr s)) →
  (∀ items, Forall P items → P (VArr items)) →
  (∀ fields, Forall (λ kv, P kv.2) fields → P (VObj fields)) →
  ∀ v, P v.
Proof.
  intros Hu Hn Hb Hz Hs Ha Ho. fix IH 1.
  intros [| |b|n|s|items|fields];
    [exact Hu | exact Hn | apply Hb | apply Hz | apply Hs | | ].
  - apply Ha. induction items as [|x items IHitems]; constructor; [apply IH|exact IHitems].
  - apply Ho. induction fields as [|[k x] fields IHfields]; constructor;
      [apply IH|exact IHfields].
Qed.

(** Numbers as a template literal and [JSON.stringify] print them. *)
Example Number_toString_examples :
  List.map Number_toString
    [ 0; -5; 404; 2 ^ 53 + 1; 2 ^ 64; 10 ^ 21 - 1; 10 ^ 21;
      123456789012345678901234; -(2 ^ 70); 2 ^ 1024 ]
  = [ "0"; "-5"; "404"; "9007199254740992"; "18446744073709552000"; "1e+21"; "1e+21";
      "1.2345678901234569e+23"; "-1.1805916207174113e+21"; "Infinity" ] ∧
  List.map JSON_stringify [VNum (10 ^ 21); VNum (2 ^ 1024); VArr [VNum 1; VUndefined]]
  = [ Some "1e+21"; Some "null"; Some "[1,null]" ].
Proof. split; vm_compute; reflexivity. Qed.

Example ToString_examples :
  List.map ToString
    [ VArr [VNum 1; VNull; VArr [VStr "a"; VBool true]]; VObj [("message", VStr "x")];
      VObj [("toString", VStr "x")]; VArr [VNum 1; VObj [("toString", VNull)]] ]
  = [ Some "1,,a,true"; Some "[object Object]"; None; None ].
Proof. vm_compute. reflexivity. Qed.

(** What a template literal can print. *)
Lemma ToString_cons (x y : value) (rest : list value) :
  ToString (VArr (x :: y :: rest)) =
    match ToString (VArr [x]), ToString (VArr (y :: rest)) with
    | Some a, Some b => Some (a +:+ "," +:+ b)
    | _, _ => None
    end.
Proof. reflexivity. Qed.

Lemma ToString_item (x : value) :
  (ToString x = None ↔ printable x = false) →
  (ToString (VArr [x]) = None ↔ nullish x || printable x = false).
Proof.
  intros Hx. destruct x; cbn [nullish orb]; try exact Hx; cbn; split; discriminate.
Qed.

Lemma ToString_printable (v : value) : ToString v = None ↔ printable v = false.
Proof.
  induction v as [| |b|n|s|items IH|fields IH] using value_deep_ind;
    try (cbn; split; discriminate).
  - destruct b; cbn; split; discriminate.
  - induction IH as [|x items Hx Hitems IHitems]; [cbn; split; discriminate|].
    change (printable (VArr (x :: items)))
      with ((nullish x || printable x) && printable (VArr items)).
    apply ToString_item in Hx.
    destruct items as [|y items].
    + change (printable (VArr [])) with true. by rewrite andb_true_r.
    + rewrite ToString_cons.
      destruct (ToString (VArr [x])) as [a|], (ToString (VArr (y :: items))) as [b|].
      * split; [discriminate|]. intros H. apply andb_false_iff in H as [H|H].
        -- by apply Hx in H.
        -- by apply IHitems in H.
      * split; [|reflexivity]. intros _. apply andb_false_iff. right. by apply IHitems.
      * split; [|reflexivity]. intros _. apply andb_false_iff. left. by apply Hx.
      * split; [|reflexivity]. intros _. apply andb_false_iff. left. by apply Hx.
  - cbn. destruct (has_own "toString" fields); cbn; split; congruence.
Qed.


(** What the handler does with a failure, case by case. *)
Lemma handler_rejected (ops : operations) (method : string) (args error : value) :
  invoke ops method args = Rejected error →
  handler ops method args =
    if nullish error then Thrown (cannot_read error "response")
    else
      match ToString (reported_message error) with
      | None => Thrown cannot_convert
      | Some message =>
          Returned (envelope (Some ("{" +:+ quote "error" +:+ ":" +:+
                                      quote ("Execution failed: " +:+ message) +:+ "}")))
      end.
Proof.
  intros Hinv. unfold handler. rewrite Hinv.
  destruct (nullish error) eqn:Hn; [reflexivity|].
  rewrite (errorMessage_reported _ Hn).
  destruct (ToString (reported_message error)) as [message|]; [|reflexivity].
  by rewrite stringify_error_object.
Qed.

(** A failure whose message to report is a string. *)
Lemma handler_reports (ops : operations) (method : string) (args error : value)
    (message : string) :
  invoke ops method args = Rejected error →
  nullish error = false →
  reported_message error = VStr message →
  handler ops method args =
    Returned (envelope (Some ("{" +:+ quote "error" +:+ ":" +:+
                                quote ("Execution failed: " +:+ message) +:+ "}"))).
Proof.
  intros Hinv Hn Hm. by rewrite (handler_rejected _ _ _ _ Hinv), Hn, Hm.
Qed.




(** The answer to a failure with a structured message, as sent. *)
Example handler_structured_message :
  let failure :=
    VObj [ ("message", VStr "Request failed with status code 404");
           ("response",
            VObj [("data", VObj [("errors",
                   VArr [VObj [("code", VNum 404); ("message", VStr "Unknown user")]])])]) ] in
  handler (λ _ _, Rejected failure) "get_user" (VObj [("id", VStr "42")]) =
    Returned {| content :=
      [ {| type := "text";
           text := Some ("{" +:+ quote "error" +:+ ":" +:+
                           quote "Execution failed: Unknown user" +:+ "}") |} ] |}.
Proof. reflexivity. Qed.

(** The other ways a call can fail under the handler. *)
Example handler_own_message :
  handler (λ _ _, Rejected (Error "socket hang up")) "list_users" VUndefined =
    Returned (envelope (Some
      ("{" +:+ quote "error" +:+ ":" +:+ quote "Execution failed: socket hang up" +:+ "}"))).
Proof. reflexivity. Qed.

Example handler_generic_message :
  handler (λ _ _, Rejected (VObj [])) "list_users" VUndefined =
    Returned (envelope (Some
      ("{" +:+ quote "error" +:+ ":" +:+
         quote "Execution failed: An unknown error occurred." +:+ "}"))).
Proof. reflexivity. Qed.

Example handler_unimplemented :
  handler (λ _ _, Fulfilled VNull) "no_such_tool" VUndefined =
    Returned (envelope (Some
      ("{" +:+ quote "error" +:+ ":" +:+
         quote "Execution failed: Tool 'no_such_tool' is defined but not implemented in the server."
         +:+ "}"))).
Proof. reflexivity. Qed.

(** A thrown [undefined] escapes: reading [error.response] throws in turn. *)
Example handler_nullish_escapes :
  ∃ reason, handler (λ _ _, Rejected VUndefined) "list_users" VUndefined = Thrown reason.
Proof. eexists. reflexivity. Qed.

(** * Further properties of the gateway *)

(** ** What a request can and cannot do *)

(** Case analysis along [handleRequest]: the body, the session id of the
    headers and the method, then what [transports] holds under the id. *)
Ltac dispatch_cases st req :=
  unfold serve, handleRequest, parse, bind;
  destruct (jsonBody_of (body req)) as [?j|];
  [ destruct (getSessionIdFromHeaders (headers req)) as [?id|] eqn:?Hsid;
    (destruct (String.eqb (method req) "GET") eqn:?Hget;
     [ | destruct (String.eqb (method req) "POST") eqn:?Hpost ]) | ];
  cbn -[js_get js_set randomUUID inherited].

Ltac lookup_cases st :=
  unfold js_get;
  match goal with
  | H : transports st !! ?id = _ |- context [transports st !! ?id] => rewrite !H
  | H : inherited ?id = _ |- context [inherited ?id] => rewrite !H
  | |- context [transports st !! ?id] => destruct (transports st !! id) eqn:?Hlook
  | |- context [inherited ?id] => destruct (inherited id) eqn:?Hinh
  end;
  cbn -[js_get js_set randomUUID inherited].

(** X1: a GET never writes to the registry, whatever its headers and body
    and whatever the registry holds. *)
Theorem get_never_writes (st : Registry) (env : Env) (req : Request) :
  method req = "GET" → (serve env req st).1 = st.
Proof.
  intros Hm. unfold serve, handleRequest, parse, bind. rewrite Hm.
  destruct (jsonBody_of (body req)) as [jsonBody|]; [|reflexivity].
  destruct (getSessionIdFromHeaders (headers req)) as [id|]; [|reflexivity].
  cbn -[js_get]. unfold js_get.
  destruct (transports st !! id) as [t|]; [reflexivity|].
  destruct (inherited id); reflexivity.
Qed.

Lemma get_never_writes_witness :
  let id := "00000000-0000-4000-8000-000000000007" in
  let st := {| transports := {[ id := {| generator := id; sessionId := Some id |} ]};
               sessionTimestamps := {[ id := 1000 ]} |} in
  let req := {| method := "GET"; headers := {[ "mcp-session-id" := "toString" ]};
                body := Malformed |} in
  (serve {| now := 5000; random := 0 |} req st).1 = st.
Proof.
  intros id st req.
  apply (get_never_writes st {| now := 5000; random := 0 |} req). reflexivity.
Defined.

(** X2: the body is parsed before the method is looked at, so a body that
    is not JSON is answered 500 Internal Server Error for every method,
    GET and unsupported verbs included, and the registry is left alone. *)
Theorem malformed_body_is_500 (st : Registry) (env : Env) (req : Request) :
  jsonBody_of (body req) = None →
  serve env req st = (st, [WriteHead 500 []; End (Some "Internal Server Error")]).
Proof.
  intros Hbody. unfold serve, handleRequest, parse, bind. rewrite Hbody. reflexivity.
Qed.

Lemma malformed_body_is_500_witness :
  let req := {| method := "DELETE"; headers := ∅; body := Malformed |} in
  serve {| now := 0; random := 0 |} req empty_registry =
    (empty_registry, [WriteHead 500 []; End (Some "Internal Server Error")]).
Proof.
  intros req.
  apply (malformed_body_is_500 empty_registry {| now := 0; random := 0 |} req).
  reflexivity.
Defined.

(** X3: any method other than GET and POST, with a body that parses, is
    answered 405 with the header Allow: GET, POST; the session-id header is
    not even read and the registry is unchanged. *)
Theorem other_methods_not_allowed
    (st : Registry) (env : Env) (req : Request) (jsonBody : value) :
  method req ≠ "GET" → method req ≠ "POST" →
  jsonBody_of (body req) = Some jsonBody →
  serve env req st =
    (st, [WriteHead 405 [("Allow", "GET, POST")]; End (Some "Method Not Allowed")]).
Proof.
  intros Hget Hpost Hbody. unfold serve, handleRequest, parse, bind. rewrite Hbody.
  apply String.eqb_neq in Hget, Hpost. rewrite Hget, Hpost. reflexivity.
Qed.

Lemma other_methods_not_allowed_witness :
  let id := "00000000-0000-4000-8000-000000000007" in
  let st := {| transports := {[ id := {| generator := id; sessionId := Some id |} ]};
               sessionTimestamps := {[ id := 1000 ]} |} in
  let req := {| method := "DELETE"; headers := {[ "mcp-session-id" := id ]};
                body := Empty |} in
  serve {| now := 5000; random := 0 |} req st =
    (st, [WriteHead 405 [("Allow", "GET, POST")]; End (Some "Method Not Allowed")]).
Proof.
  intros id st req.
  apply (other_methods_not_allowed st {| now := 5000; random := 0 |} req VNull);
    [simpl; discriminate | simpl; discriminate | reflexivity].
Defined.

(** X4: a GET without a session id is answered 400 No session ID. *)
Theorem get_without_session_rejected
    (st : Registry) (env : Env) (req : Request) (jsonBody : value) :
  method req = "GET" →
  jsonBody_of (body req) = Some jsonBody →
  getSessionIdFromHeaders (headers req) = None →
  serve env req st =
    (st,
     [ WriteHead 400 [("Content-Type", "application/json")];
       End (JSON_stringify
              (VObj [("error", VStr "No session ID");
                     ("message", VStr "GET requests require a valid session ID. Please initialize the connection first.")])) ]).
Proof.
  intros Hm Hbody Hsid. unfold serve, handleRequest, parse, bind.
  rewrite Hbody, Hm, Hsid. reflexivity.
Qed.

Lemma get_without_session_rejected_witness :
  let req := {| method := "GET"; headers := {[ "Mcp-Session-Id" := "abc" ]};
                body := Empty |} in
  serve {| now := 0; random := 0 |} req empty_registry =
    (empty_registry,
     [ WriteHead 400 [("Content-Type", "application/json")];
       End (JSON_stringify
              (VObj [("error", VStr "No session ID");
                     ("message", VStr "GET requests require a valid session ID. Please initialize the connection first.")])) ]).
Proof.
  intros req.
  apply (get_without_session_rejected empty_registry {| now := 0; random := 0 |} req VNull);
    reflexivity.
Defined.

(** X5: every request is settled exactly once: either the response is
    ended by the server (a 4xx, 405 or 500 answer) or the request is handed
    to one transport; never both, never neither. *)
Theorem serve_settles_once (st : Registry) (env : Env) (req : Request) :
  length (List.filter settles (serve env req st).2) = 1%nat.
Proof.
  dispatch_cases st req.
  all: repeat lookup_cases st.
  all: try reflexivity.
  - destruct (isInitializeRequest j); [|reflexivity].
    cbn -[randomUUID js_set]. rewrite randomUUID_nonempty. reflexivity.
Qed.

(** X6: a request that carries a session id changes nothing but the
    timestamp under that id: [transports] is as before, and so is the
    timestamp of every other session. *)
Theorem request_touches_only_its_session
    (st : Registry) (env : Env) (req : Request) (id : string) :
  getSessionIdFromHeaders (headers req) = Some id →
  transports (serve env req st).1 = transports st ∧
  ∀ other, other ≠ id →
    sessionTimestamps (serve env req st).1 !! other = sessionTimestamps st !! other.
Proof.
  intros Hid. revert Hid. dispatch_cases st req.
  all: intros Hid; try discriminate Hid; try (injection Hid as ->).
  all: repeat lookup_cases st.
  all: split; [reflexivity|]; intros other Hne; try reflexivity.
  all: unfold js_set; destruct (String.eqb id "__proto__"); [reflexivity|].
  all: cbn; by rewrite lookup_insert_ne.
Qed.

Lemma request_touches_only_its_session_witness :
  let a := "00000000-0000-4000-8000-000000000007" in
  let b := "00000000-0000-4000-8000-000000000008" in
  let st := {| transports := {[ a := {| generator := a; sessionId := Some a |} ]}
                             ∪ {[ b := {| generator := b; sessionId := Some b |} ]};
               sessionTimestamps := {[ a := 1000 ]} ∪ {[ b := 2000 ]} |} in
  let env := {| now := 5000; random := 0 |} in
  let req := {| method := "POST"; headers := {[ "mcp-session-id" := a ]}; body := Empty |} in
  transports (serve env req st).1 = transports st ∧
  ∀ other, other ≠ a →
    sessionTimestamps (serve env req st).1 !! other = sessionTimestamps st !! other.
Proof.
  intros a b st env req.
  apply (request_touches_only_its_session st env req a). reflexivity.
Defined.

(** ** Invariants of the registry *)

Lemma serve_well_keyed (env : Env) (req : Request) (st : Registry) :
  well_keyed st → well_keyed (serve env req st).1.
Proof.
  intros Hwk. dispatch_cases st req.
  all: repeat lookup_cases st.
  all: try exact Hwk.
  - intros k t' Hk. cbn in Hk. destruct (Hwk k t' Hk) as (Hb & Ht & Hs).
    repeat split; try assumption. cbn. unfold js_set.
    destruct (String.eqb id "__proto__"); [exact Hs|].
    destruct (decide (id = k)) as [->|Hne].
    + rewrite lookup_insert_eq. eauto.
    + by rewrite lookup_insert_ne.
  - intros k t' Hk. cbn in Hk. destruct (Hwk k t' Hk) as (Hb & Ht & Hs).
    repeat split; try assumption. cbn. unfold js_set.
    destruct (String.eqb id "__proto__"); [exact Hs|].
    destruct (decide (id = k)) as [->|Hne].
    + rewrite lookup_insert_eq. eauto.
    + by rewrite lookup_insert_ne.
  - destruct (isInitializeRequest j); [|exact Hwk].
    cbn -[randomUUID js_set]. rewrite randomUUID_nonempty.
    cbn -[randomUUID js_set]. rewrite !js_set_plain by apply randomUUID_not_proto.
    intros k t' Hk. cbn -[randomUUID] in Hk |- *.
    destruct (decide (randomUUID (random env) = k)) as [<-|Hne].
    + rewrite lookup_insert_eq in Hk. injection Hk as <-.
      rewrite lookup_insert_eq. repeat split; eauto.
    + rewrite lookup_insert_ne in Hk by done.
      destruct (Hwk k t' Hk) as (Hb & Ht & Hs).
      rewrite lookup_insert_ne by done. repeat split; assumption.
Qed.

Lemma cleanupOldSessions_well_keyed (now : Z) (st : Registry) :
  well_keyed st → well_keyed (state_of (cleanupOldSessions now st)).
Proof.
  intros Hwk k t Hk.
  destruct (cleanupOldSessions_spec now st) as (_ & Htr & Hts & _).
  rewrite Htr in Hk. rewrite Hts.
  destruct (stale now st k); [discriminate|]. by apply Hwk.
Qed.

Lemma onclose_well_keyed (id : string) (st : Registry) :
  well_keyed st → well_keyed (state_of (onclose id st)).
Proof.
  intros Hwk k t. rewrite onclose_run. unfold state_of. cbn.
  destruct (decide (id = k)) as [->|Hne].
  - by rewrite lookup_delete_eq.
  - rewrite !lookup_delete_ne by done. apply Hwk.
Qed.

Lemma step_well_keyed (st st' : Registry) : step st st' → well_keyed st → well_keyed st'.
Proof.
  intros [env req|now|id].
  - apply serve_well_keyed.
  - apply cleanupOldSessions_well_keyed.
  - apply onclose_well_keyed.
Qed.

Lemma reachable_well_keyed_aux (st : Registry) : reachable st → well_keyed st.
Proof.
  unfold reachable. intros Hr.
  apply (rtc_ind_r (R := step) (λ s, well_keyed s) empty_registry); [| |exact Hr].
  - intros k t Hk. cbn in Hk. rewrite lookup_empty in Hk. discriminate.
  - intros y z _ Hstep Hy. by eapply step_well_keyed.
Qed.

(** X7: in every registry the server can reach (by requests, sweeps and
    [onclose] callbacks, in any order, from the empty one), each transport
    is stored under an id printed by [randomUUID], carries that id as its
    [sessionId], and has a timestamp; so the keys of [transports] are
    always among those of [sessionTimestamps]. *)
Theorem reachable_well_keyed (st : Registry) :
  reachable st →
  well_keyed st ∧ dom (transports st) ⊆ dom (sessionTimestamps st).
Proof.
  intros Hr. pose proof (reachable_well_keyed_aux st Hr) as Hwk. split; [exact Hwk|].
  intros k [t Ht]%elem_of_dom. apply elem_of_dom. by destruct (Hwk k t Ht) as (_ & _ & ?).
Qed.

(** A registry with two sessions, and a timestamp that belongs to none:
    the server reaches it by an initialize request, a POST under the
    session id constructor, and another initialize request. *)
Lemma reachable_well_keyed_witness :
  let init := {| method := "POST"; headers := ∅;
                 body := Json (VObj [("method", VStr "initialize")]) |} in
  let odd := {| method := "POST"; headers := {[ "mcp-session-id" := "constructor" ]};
                body := Empty |} in
  let st1 := (serve {| now := 1000; random := 7 |} init empty_registry).1 in
  let st2 := (serve {| now := 2000; random := 0 |} odd st1).1 in
  let st := (serve {| now := 3000; random := 8 |} init st2).1 in
  well_keyed st ∧ dom (transports st) ⊆ dom (sessionTimestamps st).
Proof.
  intros init odd st1 st2 st. apply (reachable_well_keyed st).
  unfold reachable.
  apply (rtc_l step empty_registry st1 st); [apply step_request|].
  apply (rtc_l step st1 st2 st); [apply step_request|].
  apply rtc_once. apply step_request.
Defined.

Example reachable_registry_two_sessions :
  let init := {| method := "POST"; headers := ∅;
                 body := Json (VObj [("method", VStr "initialize")]) |} in
  let odd := {| method := "POST"; headers := {[ "mcp-session-id" := "constructor" ]};
                body := Empty |} in
  let st1 := (serve {| now := 1000; random := 7 |} init empty_registry).1 in
  let st2 := (serve {| now := 2000; random := 0 |} odd st1).1 in
  let st := (serve {| now := 3000; random := 8 |} init st2).1 in
  let a := randomUUID 7 in
  let b := randomUUID 8 in
  st = {| transports := {[ a := {| generator := a; sessionId := Some a |};
                           b := {| generator := b; sessionId := Some b |} ]};
          sessionTimestamps := {[ a := 1000; "constructor" := 2000; b := 3000 ]} |}.
Proof. vm_compute. reflexivity. Qed.

(** X8: in a reachable registry, a request that names session [id] is
    never handed to the transport of another session: the transport that
    receives it is the one stored under [id] and carries [id]. *)
Theorem forwarded_to_own_session
    (st : Registry) (env : Env) (req : Request) (id : string)
    (t : Transport) (parsed : option value) :
  reachable st →
  getSessionIdFromHeaders (headers req) = Some id →
  HandleRequest t parsed ∈ (serve env req st).2 →
  transports st !! id = Some t ∧ sessionId t = Some id.
Proof.
  intros Hr Hid Hin. pose proof (reachable_well_keyed_aux st Hr) as Hwk.
  assert (transports st !! id = Some t) as Ht.
  { revert Hid Hin. dispatch_cases st req.
    all: intros Hid; try discriminate Hid; try (injection Hid as ->).
    all: repeat lookup_cases st.
    all: intros Hin.
    all: repeat (apply elem_of_cons in Hin as [Hin|Hin]; [try discriminate Hin|]).
    all: try (by apply elem_of_nil in Hin).
    all: by injection Hin as -> _. }
  split; [exact Ht|].
  destruct (Hwk id t Ht) as (_ & -> & _). reflexivity.
Qed.

Lemma forwarded_to_own_session_witness :
  let id := "00000000-0000-4000-8000-000000000007" in
  let t := {| generator := id; sessionId := Some id |} in
  let init := {| method := "POST"; headers := ∅;
                 body := Json (VObj [("method", VStr "initialize")]) |} in
  let st := (serve {| now := 1000; random := 7 |} init empty_registry).1 in
  transports st !! id = Some t ∧ sessionId t = Some id.
Proof.
  intros id t init st.
  apply (forwarded_to_own_session st {| now := 2000; random := 0 |}
           {| method := "GET"; headers := {[ "mcp-session-id" := id ]}; body := Empty |}
           id t None).
  - unfold reachable. eapply rtc_once. apply step_request.
  - reflexivity.
  - assert ((serve {| now := 2000; random := 0 |}
               {| method := "GET"; headers := {[ "mcp-session-id" := id ]}; body := Empty |}
               st).2 = [HandleRequest t None]) as -> by (vm_compute; reflexivity).
    apply elem_of_cons. by left.
Defined.

(** ** The reaper and the clock *)

(** X9: a sweep spares every session whose last activity is at most 30
    minutes old, exactly 30 minutes included: its transport and its
    timestamp are as before. *)
Theorem sweep_spares_active
    (st : Registry) (sweep_time : Z) (id : string) (lastActivity : Z) :
  sessionTimestamps st !! id = Some lastActivity →
  sweep_time - lastActivity ≤ 30 * 60 * 1000 →
  let swept := state_of (cleanupOldSessions sweep_time st) in
  transports swept !! id = transports st !! id ∧
  sessionTimestamps swept !! id = Some lastActivity.
Proof.
  intros Hts Hage swept.
  destruct (cleanupOldSessions_spec sweep_time st) as (_ & Htr & Htss & _).
  fold swept in Htr, Htss.
  assert (stale sweep_time st id = false) as Hfresh.
  { unfold stale. rewrite Hts, Z.gtb_ltb. apply Z.ltb_ge. unfold maxAge. lia. }
  by rewrite Htr, Htss, Hfresh.
Qed.

Lemma sweep_spares_active_witness :
  let id := "00000000-0000-4000-8000-000000000007" in
  let t := {| generator := id; sessionId := Some id |} in
  let st := {| transports := {[ id := t ]}; sessionTimestamps := {[ id := 1000 ]} |} in
  let swept := state_of (cleanupOldSessions 1801000 st) in
  transports swept !! id = transports st !! id ∧
  sessionTimestamps swept !! id = Some 1000.
Proof.
  intros id t st swept.
  apply (sweep_spares_active st 1801000 id 1000).
  - vm_compute. reflexivity.
  - lia.
Defined.

(** X10: a second sweep at the same instant removes nothing more. *)
Theorem sweep_twice (st : Registry) (sweep_time : Z) :
  state_of (cleanupOldSessions sweep_time (state_of (cleanupOldSessions sweep_time st)))
  = state_of (cleanupOldSessions sweep_time st).
Proof. apply (cleanupOldSessions_idempotent sweep_time st). Qed.

(** X11: a POST under a session id refreshes the session: a sweep that
    comes up to 30 minutes after that request keeps the session, however
    old its previous activity was. *)
Theorem post_protects_from_sweep
    (st : Registry) (env : Env) (req : Request) (jsonBody : value)
    (bits : N) (t : Transport) (sweep_time : Z) :
  let id := randomUUID bits in
  method req = "POST" →
  jsonBody_of (body req) = Some jsonBody →
  getSessionIdFromHeaders (headers req) = Some id →
  transports st !! id = Some t →
  sweep_time - now env ≤ 30 * 60 * 1000 →
  let swept := state_of (cleanupOldSessions sweep_time (serve env req st).1) in
  transports swept !! id = Some t ∧
  sessionTimestamps swept !! id = Some (now env).
Proof.
  intros id Hm Hbody Hsid Ht Hage swept. subst swept.
  unfold serve. rewrite (post_continues st env req jsonBody Hbody id t Hm Hsid Ht).
  set (st1 := {| transports := transports st;
                 sessionTimestamps := js_set (sessionTimestamps st) id (now env) |}).
  destruct (cleanupOldSessions_spec sweep_time st1) as (_ & Htr & Htss & _).
  assert (sessionTimestamps st1 !! id = Some (now env)) as Hnow.
  { unfold st1. cbn -[randomUUID]. unfold id.
    rewrite js_set_plain by apply randomUUID_not_proto. apply lookup_insert_eq. }
  assert (stale sweep_time st1 id = false) as Hfresh.
  { unfold stale. rewrite Hnow, Z.gtb_ltb. apply Z.ltb_ge. unfold maxAge. lia. }
  rewrite Htr, Htss, Hfresh. split; [exact Ht|exact Hnow].
Qed.

Lemma post_protects_from_sweep_witness :
  let id := "00000000-0000-4000-8000-000000000007" in
  let t := {| generator := id; sessionId := Some id |} in
  let st := {| transports := {[ id := t ]}; sessionTimestamps := {[ id := 1000 ]} |} in
  let env := {| now := 1801000; random := 0 |} in
  let req := {| method := "POST"; headers := {[ "mcp-session-id" := id ]}; body := Empty |} in
  let swept := state_of (cleanupOldSessions 1801001 (serve env req st).1) in
  transports swept !! id = Some t ∧
  sessionTimestamps swept !! id = Some 1801000.
Proof.
  intros id t st env req swept.
  apply (post_protects_from_sweep st env req VNull 7 t 1801001).
  - reflexivity.
  - reflexivity.
  - reflexivity.
  - vm_compute. reflexivity.
  - simpl. lia.
Defined.

(** The run of an initialize request, for use in later steps. *)
Lemma initialize_run
    (st : Registry) (env : Env) (req : Request) (jsonBody : value) :
  jsonBody_of (body req) = Some jsonBody →
  method req = "POST" →
  getSessionIdFromHeaders (headers req) = None →
  isInitializeRequest jsonBody = true →
  handleRequest env req st =
    (Returned (),
     {| transports :=
          <[randomUUID (random env) :=
              {| generator := randomUUID (random env);
                 sessionId := Some (randomUUID (random env)) |}]> (transports st);
        sessionTimestamps := <[randomUUID (random env) := now env]> (sessionTimestamps st) |},
     [ NewTransport {| generator := randomUUID (random env); sessionId := None |};
       Connect {| generator := randomUUID (random env); sessionId := None |};
       SetHeader SESSION_ID_HEADER_NAME (randomUUID (random env));
       SetTransport (randomUUID (random env))
         {| generator := randomUUID (random env);
            sessionId := Some (randomUUID (random env)) |};
       SetTimestamp (randomUUID (random env)) (now env);
       SetOnclose {| generator := randomUUID (random env);
                     sessionId := Some (randomUUID (random env)) |}
                  (randomUUID (random env));
       HandleRequest {| generator := randomUUID (random env);
                        sessionId := Some (randomUUID (random env)) |}
                     (Some jsonBody) ]).
Proof.
  intros Hbody Hm Hsid Hinit.
  unfold handleRequest, parse, bind. rewrite Hbody, Hm, Hsid.
  cbn -[randomUUID]. rewrite Hinit.
  cbn -[randomUUID]. rewrite randomUUID_nonempty.
  cbn -[randomUUID]. unfold js_set. rewrite randomUUID_not_proto.
  reflexivity.
Qed.

(** X12: the id announced by an initialize request opens the session: a
    later POST that sends the id back, with nothing removed in between,
    is handed to the transport created for it and stamps the session with
    the time of that POST. *)
Theorem initialize_then_resume
    (st : Registry) (env1 env2 : Env) (init resume : Request) (body1 body2 : value) :
  method init = "POST" →
  getSessionIdFromHeaders (headers init) = None →
  jsonBody_of (body init) = Some body1 →
  isInitializeRequest body1 = true →
  let id := randomUUID (random env1) in
  let transport := {| generator := id; sessionId := Some id |} in
  method resume = "POST" →
  getSessionIdFromHeaders (headers resume) = Some id →
  jsonBody_of (body resume) = Some body2 →
  let opened := (serve env1 init st).1 in
  (serve env2 resume opened).2 =
    [SetTimestamp id (now env2); HandleRequest transport (Some body2)] ∧
  sessionTimestamps (serve env2 resume opened).1 !! id = Some (now env2).
Proof.
  intros Hm1 Hsid1 Hbody1 Hinit id transport Hm2 Hsid2 Hbody2 opened.
  pose proof (initialize_run st env1 init body1 Hbody1 Hm1 Hsid1 Hinit) as Hrun1.
  assert (transports opened !! id = Some transport) as Ht.
  { unfold opened, serve. rewrite Hrun1. cbn -[randomUUID]. apply lookup_insert_eq. }
  assert (serve env2 resume opened =
            ({| transports := transports opened;
                sessionTimestamps := js_set (sessionTimestamps opened) id (now env2) |},
             [SetTimestamp id (now env2); HandleRequest transport (Some body2)])) as ->.
  { unfold serve.
    by rewrite (post_continues opened env2 resume body2 Hbody2 id transport Hm2 Hsid2 Ht). }
  split; [reflexivity|]. cbn -[randomUUID]. unfold id.
  rewrite js_set_plain by apply randomUUID_not_proto. apply lookup_insert_eq.
Qed.

Lemma initialize_then_resume_witness :
  let id := "00000000-0000-4000-8000-000000000007" in
  let transport := {| generator := id; sessionId := Some id |} in
  let init := {| method := "POST"; headers := ∅;
                 body := Json (VObj [("method", VStr "initialize")]) |} in
  let resume := {| method := "POST"; headers := {[ "MCP-SESSION-ID" := id ]};
                   body := Json (VObj [("method", VStr "tools/list")]) |} in
  let env1 := {| now := 1000; random := 7 |} in
  let env2 := {| now := 2000; random := 8 |} in
  let opened := (serve env1 init empty_registry).1 in
  (serve env2 resume opened).2 =
    [SetTimestamp id 2000;
     HandleRequest transport (Some (VObj [("method", VStr "tools/list")]))] ∧
  sessionTimestamps (serve env2 resume opened).1 !! id = Some 2000.
Proof.
  intros id transport init resume env1 env2 opened.
  apply (initialize_then_resume empty_registry env1 env2 init resume
           (VObj [("method", VStr "initialize")]) (VObj [("method", VStr "tools/list")]));
    reflexivity.
Defined.

(** ** Reading the session-id header *)

(** X13: only the entries under mcp-session-id and MCP-SESSION-ID count,
    whatever else the header map holds; the lower-case entry wins; an
    entry with an empty value is as good as absent. *)
Theorem session_header_reading (h : gmap string string) :
  (∀ k v, k ≠ "mcp-session-id" → k ≠ "MCP-SESSION-ID" →
          getSessionIdFromHeaders (<[k := v]> h) = getSessionIdFromHeaders h) ∧
  (∀ v, h !! "mcp-session-id" = Some v → v ≠ "" →
        getSessionIdFromHeaders h = Some v) ∧
  (∀ w, h !! "mcp-session-id" = None ∨ h !! "mcp-session-id" = Some "" →
        h !! "MCP-SESSION-ID" = Some w → w ≠ "" →
        getSessionIdFromHeaders h = Some w) ∧
  (h !! "mcp-session-id" = None ∨ h !! "mcp-session-id" = Some "" →
   h !! "MCP-SESSION-ID" = None ∨ h !! "MCP-SESSION-ID" = Some "" →
   getSessionIdFromHeaders h = None).
Proof.
  repeat split.
  - intros k v Hl Hu. rewrite !getSessionIdFromHeaders_two_keys. cbn [first_header].
    by rewrite !lookup_insert_ne.
  - intros v Hv Hne. rewrite getSessionIdFromHeaders_two_keys. cbn [first_header].
    rewrite Hv. apply String.eqb_neq in Hne. by rewrite Hne.
  - intros w Hl Hu Hne. rewrite getSessionIdFromHeaders_two_keys. cbn [first_header].
    apply String.eqb_neq in Hne. destruct Hl as [-> | ->]; cbn; by rewrite Hu, Hne.
  - intros Hl Hu. rewrite getSessionIdFromHeaders_two_keys. cbn [first_header].
    destruct Hl as [-> | ->], Hu as [-> | ->]; reflexivity.
Qed.

(** ** The tool handler *)

(** X14: the handler lets an exception escape in two cases only: the
    operation threw [null] or [undefined], or it threw a failure whose
    message to report cannot be printed, being an object with a [toString]
    property of its own or an array that holds one. Every other outcome,
    success or failure, is returned as an envelope. *)
Theorem handler_throws_iff (ops : operations) (method : string) (args : value) :
  (∃ reason, handler ops method args = Thrown reason) ↔
  (∃ e, invoke ops method args = Rejected e ∧
        (nullish e = true ∨ printable (reported_message e) = false)).
Proof.
  split.
  - intros [reason H]. unfold handler in H.
    destruct (invoke ops method args) as [result|e]; [discriminate|].
    exists e. split; [reflexivity|].
    destruct (nullish e) eqn:Hn; [by left|right].
    rewrite (errorMessage_reported _ Hn) in H.
    destruct (ToString (reported_message e)) as [message|] eqn:E; [discriminate|].
    by apply ToString_printable.
  - intros (e & Hinv & Hcase). rewrite (handler_rejected _ _ _ _ Hinv).
    destruct (nullish e); [eauto|].
    destruct Hcase as [Hn|Hp]; [discriminate|].
    apply ToString_printable in Hp. rewrite Hp. eauto.
Qed.

(** X15: every tool that [tools()] lists is registered once and has a case
    in the switch of the handler, so calling a registered tool always
    reaches an operation and never the default branch. The cases
    get_manager_config, get_proxy_authentication_info and get_metrics
    belong to no listed tool. *)
Theorem registered_tools_routed :
  NoDup tools ∧
  (∀ (ops : operations) (method : string) (h : value → outcome ToolResult),
      (method, h) ∈ registerTools ops tools →
      h = handler ops method ∧
      ∃ op, route method routes = Some op ∧
            (∀ args, invoke ops method args = ops op args)) ∧
  (∀ method, method ∈ ["get_manager_config"; "get_proxy_authentication_info"; "get_metrics"] →
             (method ∉ tools) ∧ is_Some (route method routes)).
Proof.
  split; [|split].
  - apply (bool_decide_unpack (NoDup tools)). vm_compute. exact I.
  - intros ops method h Hin. split; [by eapply registerTools_handler|].
    unfold registerTools in Hin. apply list_elem_of_fmap in Hin as (m & Heq & Hm).
    injection Heq as -> _.
    assert (forallb (λ m, match route m routes with Some _ => true | None => false end)
              tools = true) as Hall by (vm_compute; reflexivity).
    rewrite forallb_forall in Hall. apply list_elem_of_In in Hm.
    specialize (Hall m Hm). unfold invoke.
    destruct (route m routes) as [op|]; [|discriminate]. eauto.
  - intros method Hin.
    repeat (apply elem_of_cons in Hin as [->|Hin]);
      [| | |by apply elem_of_nil in Hin];
      (split; [apply (bool_decide_unpack (_ ∉ tools)); vm_compute; exact I
              | vm_compute; eauto]).
Qed.

(** X16: a method with no case in the switch calls no operation; the
    handler returns the envelope of the failure that names the tool. *)
Theorem unrouted_tool_reports (ops : operations) (method : string) (args : value) :
  route method routes = None →
  handler ops method args =
    Returned (envelope (Some
      ("{" +:+ quote "error" +:+ ":" +:+
         quote ("Execution failed: Tool '" +:+ method +:+
                "' is defined but not implemented in the server.") +:+ "}"))).
Proof.
  intros Hroute.
  apply (handler_reports _ _ _
           (Error ("Tool '" +:+ method +:+ "' is defined but not implemented in the server.")));
    [|reflexivity..].
  unfold invoke. by rewrite Hroute.
Qed.

Lemma unrouted_tool_reports_witness :
  handler (λ _ _, Fulfilled VNull) "list_everything" (VObj []) =
    Returned (envelope (Some
      ("{" +:+ quote "error" +:+ ":" +:+
         quote ("Execution failed: Tool '" +:+ "list_everything" +:+
                "' is defined but not implemented in the server.") +:+ "}"))).
Proof.
  apply (unrouted_tool_reports (λ _ _, Fulfilled VNull) "list_everything" (VObj [])).
  reflexivity.
Defined.

(** * Properties of the operations *)

(** ** [removeEmptyValues] *)

Lemma forallb_filter_kept {A : Type} (keep ok : A → bool) (l : list A) :
  Forall (λ x, keep x = true → ok x = true) l →
  forallb ok (List.filter keep l) = true.
Proof.
  induction 1 as [|x l Hx _ IH]; cbn; [reflexivity|].
  destruct (keep x) eqn:E; [|exact IH]. cbn. by rewrite (Hx eq_refl), IH.
Qed.

Lemma removeEmptyValues_compact_aux (v : value) : compact (removeEmptyValues v) = true.
Proof.
  induction v as [| |b|n|s|items IH|fields IH] using value_deep_ind; try reflexivity.
  - cbn [removeEmptyValues compact]. apply forallb_filter_kept.
    induction IH as [|x items Hx _ IHitems]; cbn; constructor; [|exact IHitems].
    intros Hkeep. by rewrite Hkeep, Hx.
  - cbn [removeEmptyValues compact]. apply forallb_filter_kept.
    induction IH as [|[k x] fields Hx _ IHfields]; cbn; constructor; [|exact IHfields].
    cbn in *. intros Hkeep. by rewrite Hkeep, Hx.
Qed.

Lemma removeEmptyValues_fixed_aux (v : value) :
  compact v = true → removeEmptyValues v = v.
Proof.
  induction v as [| |b|n|s|items IH|fields IH] using value_deep_ind; try reflexivity.
  - cbn [removeEmptyValues compact]. intros Hc. f_equal.
    induction IH as [|x items Hx _ IHitems]; [reflexivity|].
    cbn in Hc |- *. apply andb_prop in Hc as [Hxc Hrest].
    apply andb_prop in Hxc as [Hne Hxc].
    rewrite (Hx Hxc), Hne. cbn. f_equal. by apply IHitems.
  - cbn [removeEmptyValues compact]. intros Hc. f_equal.
    induction IH as [|[k x] fields Hx _ IHfields]; [reflexivity|].
    cbn in Hc, Hx |- *. apply andb_prop in Hc as [Hxc Hrest].
    apply andb_prop in Hxc as [Hne Hxc]. apply andb_prop in Hne as [Hne Hk].
    rewrite (Hx Hxc), Hne, Hk. cbn. f_equal. by apply IHfields.
Qed.

(** X17: the result of [removeEmptyValues] holds no [null], [undefined],
    empty string, empty array or empty object as an array item or as a
    property value, at any depth, and no own property named [__proto__]. *)
Theorem removeEmptyValues_compact (v : value) : compact (removeEmptyValues v) = true.
Proof. apply removeEmptyValues_compact_aux. Qed.

(** X18: a value with no empty member at any depth comes back unchanged;
    in particular [false] and [0] are kept. *)
Theorem removeEmptyValues_fixed (v : value) :
  compact v = true → removeEmptyValues v = v.
Proof. apply removeEmptyValues_fixed_aux. Qed.

Lemma removeEmptyValues_fixed_witness :
  let v := VObj [ ("enabled", VBool false); ("retries", VNum 0);
                  ("tags", VArr [VStr "a"; VObj [("deep", VArr [VNum 1])]]) ] in
  removeEmptyValues v = v.
Proof.
  intros v. apply (removeEmptyValues_fixed v). reflexivity.
Defined.

(** X19: cleaning twice is cleaning once. *)
Theorem removeEmptyValues_idempotent (v : value) :
  removeEmptyValues (removeEmptyValues v) = removeEmptyValues v.
Proof. apply removeEmptyValues_fixed_aux, removeEmptyValues_compact_aux. Qed.

(** X20: emptiness spreads upwards: an array or object all of whose
    members clean to nothing is itself cleaned to the empty array or
    object, and so is dropped by whatever contains it. *)
Theorem removeEmptyValues_drops_hollow :
  (∀ items, Forall (λ item, is_empty (removeEmptyValues item) = true) items →
            removeEmptyValues (VArr items) = VArr []) ∧
  (∀ fields, Forall (λ kv, is_empty (removeEmptyValues kv.2) = true) fields →
             removeEmptyValues (VObj fields) = VObj []).
Proof.
  split.
  - intros items H. cbn [removeEmptyValues]. f_equal.
    induction H as [|x items Hx _ IH]; [reflexivity|]. cbn. by rewrite Hx.
  - intros fields H. cbn [removeEmptyValues]. f_equal.
    induction H as [|[k x] fields Hx _ IH]; [reflexivity|]. cbn in *. by rewrite Hx.
Qed.

(** ** [updateApiProxy] *)

(** X21: when none of name, path and apiId carries anything (each is
    [undefined], [null], an empty string, or cleans to an empty array or
    object), [updateApiProxy] makes no call to the API and reports that
    nothing was done. *)
Theorem updateApiProxy_nothing_to_update
    (api : value → value → settled) (id name path apiId : value) :
  is_empty (removeEmptyValues name) = true →
  is_empty (removeEmptyValues path) = true →
  is_empty (removeEmptyValues apiId) = true →
  updateApiProxy api id name path apiId = ([], Fulfilled nothing_to_update).
Proof.
  intros Hn Hp Ha. unfold updateApiProxy.
  cbn [removeEmptyValues List.map List.filter fst snd]. rewrite Hn, Hp, Ha. reflexivity.
Qed.

Lemma updateApiProxy_nothing_to_update_witness :
  updateApiProxy (λ _ _, Rejected (Error "unreachable")) (VStr "42")
    VUndefined (VStr "") (VObj [("ignored", VArr [VNull])])
  = ([], Fulfilled nothing_to_update).
Proof.
  apply (updateApiProxy_nothing_to_update (λ _ _, Rejected (Error "unreachable"))
           (VStr "42") VUndefined (VStr "") (VObj [("ignored", VArr [VNull])]));
    reflexivity.
Defined.

(** X22: whenever [updateApiProxy] calls the API it calls it once, for the
    given id, with a payload that has at least one property, only
    properties among name, path and apiId, and no empty member at any
    depth. *)
Theorem updateApiProxy_payload
    (api : value → value → settled) (id name path apiId : value) (c : api_call) :
  c ∈ (updateApiProxy api id name path apiId).1 →
  ∃ payload,
    (updateApiProxy api id name path apiId).1 = [UpdateApiProxy id payload] ∧
    c = UpdateApiProxy id payload ∧
    payload = removeEmptyValues (VObj [("name", name); ("path", path); ("apiId", apiId)]) ∧
    own_keys payload ≠ [] ∧
    own_keys payload ⊆ ["name"; "path"; "apiId"] ∧
    compact payload = true.
Proof.
  unfold updateApiProxy.
  set (payload := removeEmptyValues (VObj [("name", name); ("path", path); ("apiId", apiId)])).
  destruct (Nat.eqb (length (own_keys payload)) 0) eqn:Hlen.
  - intros Hin. by apply elem_of_nil in Hin.
  - cbn [fst].
    intros Hin. apply list_elem_of_singleton in Hin as ->.
    exists payload. repeat split.
    + intros Hk. rewrite Hk in Hlen. discriminate.
    + unfold payload. cbn [removeEmptyValues own_keys].
      intros k Hk. apply list_elem_of_In, in_map_iff in Hk as ([k' x] & <- & Hkx).
      apply filter_In in Hkx as [Hkx _].
      apply list_elem_of_In. change (In (k', x).1 ["name"; "path"; "apiId"]).
      cbn in Hkx. destruct Hkx as [[= <- _]|[[= <- _]|[[= <- _]|[]]]]; cbn; tauto.
    + apply removeEmptyValues_compact_aux.
Qed.

Lemma updateApiProxy_payload_witness :
  ∃ payload,
    (updateApiProxy (λ _ _, Fulfilled (VObj [("name", VStr "orders")])) (VStr "42")
       VUndefined (VStr "/orders") (VStr "")).1
      = [UpdateApiProxy (VStr "42") payload] ∧
    UpdateApiProxy (VStr "42") (VObj [("path", VStr "/orders")])
      = UpdateApiProxy (VStr "42") payload ∧
    payload = removeEmptyValues
                (VObj [("name", VUndefined); ("path", VStr "/orders"); ("apiId", VStr "")]) ∧
    own_keys payload ≠ [] ∧
    own_keys payload ⊆ ["name"; "path"; "apiId"] ∧
    compact payload = true.
Proof.
  apply (updateApiProxy_payload (λ _ _, Fulfilled (VObj [("name", VStr "orders")]))
           (VStr "42") VUndefined (VStr "/orders") (VStr "")
           (UpdateApiProxy (VStr "42") (VObj [("path", VStr "/orders")]))).
  apply elem_of_cons. left. reflexivity.
Defined.

(** ** [uploadFileForImport] under the handler *)

(** X23: with [uploadFileForImport] as the operation behind it, the tool
    upload_file_for_import always returns an envelope: the path given
    when [args.filePath] is a non-empty string, and the failure that names
    the missing parameter when [args] has no truthy [filePath]. *)
Theorem upload_file_for_import_tool (ops : operations) (args : value) :
  ops "repository.uploadFileForImport" = uploadFileForImport →
  (∃ text, handler ops "upload_file_for_import" args = Returned (envelope (Some text))) ∧
  (∀ p, get_prop args "filePath" = VStr p → p ≠ "" →
        handler ops "upload_file_for_import" args =
          Returned (envelope (Some ("{" +:+ quote "filePath" +:+ ":" +:+ quote p +:+ "}")))) ∧
  (nullish args = false → truthy (get_prop args "filePath") = false →
   handler ops "upload_file_for_import" args =
     Returned (envelope (Some
       ("{" +:+ quote "error" +:+ ":" +:+
          quote "Execution failed: Parâmetro obrigatório: filePath" +:+ "}")))).
Proof.
  intros Hop.
  assert (invoke ops "upload_file_for_import" args = uploadFileForImport args) as Hinv.
  { unfold invoke. cbn. by rewrite Hop. }
  unfold uploadFileForImport in Hinv. repeat split.
  - destruct (nullish args) eqn:Hn.
    + eexists. eapply handler_reports; [exact Hinv|reflexivity..].
    + destruct (truthy (get_prop args "filePath")) eqn:Ht.
      * unfold handler. rewrite Hinv. cbn [JSON_stringify]. eauto.
      * eexists. eapply handler_reports; [exact Hinv|reflexivity..].
  - intros p Hp Hne.
    assert (nullish args = false) as Hn.
    { destruct args; try reflexivity; discriminate Hp. }
    rewrite Hn, Hp in Hinv. apply String.eqb_neq in Hne. cbn [truthy] in Hinv.
    rewrite Hne in Hinv. unfold handler. rewrite Hinv.
    cbn [negb JSON_stringify]. by rewrite append_nil_r.
  - intros Hn Ht. rewrite Hn, Ht in Hinv.
    by apply (handler_reports _ _ _ _ _ Hinv).
Qed.

Lemma upload_file_for_import_tool_witness :
  let ops : operations :=
    λ op, if String.eqb op "repository.uploadFileForImport"
          then uploadFileForImport else λ _, Fulfilled VNull in
  let args := VObj [("filePath", VStr "/tmp/swagger.json")] in
  (∃ text, handler ops "upload_file_for_import" args = Returned (envelope (Some text))) ∧
  (∀ p, get_prop args "filePath" = VStr p → p ≠ "" →
        handler ops "upload_file_for_import" args =
          Returned (envelope (Some ("{" +:+ quote "filePath" +:+ ":" +:+ quote p +:+ "}")))) ∧
  (nullish args = false → truthy (get_prop args "filePath") = false →
   handler ops "upload_file_for_import" args =
     Returned (envelope (Some
       ("{" +:+ quote "error" +:+ ":" +:+
          quote "Execution failed: Parâmetro obrigatório: filePath" +:+ "}")))).
Proof.
  intros ops args. apply (upload_file_for_import_tool ops args). reflexivity.
Defined.

(** ** [getMetrics] *)










(** X24: when the API answers a metrics query with something that is not
    an array, [getMetrics] still succeeds, with an empty report: no
    metric, a count of 0, and the one suggestion to list the alerts. *)
Theorem getMetrics_not_an_array (api : value → settled) (params rawMetrics : value) :
  api params = Fulfilled rawMetrics →
  (∀ items, rawMetrics ≠ VArr items) →
  getMetrics api params =
    Fulfilled (VObj
      [ ("metrics", VArr []);
        ("message", VStr "Relatório de métricas gerado com 0 resultados.");
        ("relatedTools", VArr [alerts_tool]) ]).
Proof.
  intros Hapi Hna. unfold getMetrics. rewrite Hapi.
  destruct rawMetrics as [| |b|n|s|items|fields]; try reflexivity.
  exfalso. by apply (Hna items).
Qed.

Lemma getMetrics_not_an_array_witness :
  getMetrics (λ _, Fulfilled (VObj [("errors", VArr [VObj [("code", VNum 500)]])])) VNull =
    Fulfilled (VObj
      [ ("metrics", VArr []);
        ("message", VStr "Relatório de métricas gerado com 0 resultados.");
        ("relatedTools", VArr [alerts_tool]) ]).
Proof.
  apply (getMetrics_not_an_array
           (λ _, Fulfilled (VObj [("errors", VArr [VObj [("code", VNum 500)]])])) VNull
           (VObj [("errors", VArr [VObj [("code", VNum 500)]])])).
  - reflexivity.
  - intros items. discriminate.
Defined.



(** The report for two items, one of them without a name, and the
    rejection for a name that cannot be printed. *)
Example getMetrics_two_items :
  getMetrics (λ _, Fulfilled (VArr [ VObj [("name", VStr "orders-app"); ("successes", VNum 12)];
                                     VObj [("failures", VNum 3)] ])) VNull =
    Fulfilled (VObj
      [ ("metrics",
         VArr [ VObj [ ("name", VStr "orders-app"); ("successes", VNum 12);
                       ("failures", VNum 0); ("exceptions", VNum 0);
                       ("numMessages", VNum 0); ("avgProcTime", VNum 0) ];
                VObj [ ("name", VStr "N/A"); ("successes", VNum 0);
                       ("failures", VNum 3); ("exceptions", VNum 0);
                       ("numMessages", VNum 0); ("avgProcTime", VNum 0) ] ]);
        ("message", VStr "Relatório de métricas gerado com 2 resultados.");
        ("relatedTools",
         VArr [ alerts_tool;
                VObj [ ("tool_name", VStr "get_application_quotas");
                       ("description",
                        VStr "Verificar as cotas da aplicação 'orders-app' (se for uma aplicação).");
                       ("parameters",
                        VArr [VObj [("name", VStr "applicationId");
                                    ("value", VStr "orders-app")]]) ] ]) ]).
Proof. vm_compute. reflexivity. Qed.

Example getMetrics_unprintable_name :
  getMetrics (λ _, Fulfilled (VArr [VObj [("name", VObj [("toString", VNum 1)])]])) VNull =
    Rejected cannot_convert.
Proof. reflexivity. Qed.

(** ** [main] and the constructor *)

Lemma existsb_eqb_elem (s : string) (l : list string) :
  existsb (String.eqb s) l = true ↔ s ∈ l.
Proof.
  rewrite existsb_exists, list_elem_of_In. split.
  - intros (x & Hin & ->%String.eqb_eq). exact Hin.
  - intros Hin. exists s. split; [exact Hin|apply String.eqb_refl].
Qed.

Lemma useStdio_spec (p : Process) :
  useStdio p = true ↔
  TRANSPORT_MODE p = Some "stdio" ∨ "--stdio" ∈ argv p ∨ "-s" ∈ argv p.
Proof.
  unfold useStdio. rewrite !orb_true_iff, !existsb_eqb_elem.
  assert (match TRANSPORT_MODE p with
          | Some mode => String.eqb mode "stdio"
          | None => false
          end = true ↔ TRANSPORT_MODE p = Some "stdio") as ->.
  { destruct (TRANSPORT_MODE p) as [mode|]; [|split; discriminate].
    rewrite String.eqb_eq. split; [by intros ->|by intros [= ->]]. }
  tauto.
Qed.

(** X26: the server runs its reaper exactly when it was not started in
    stdio mode, and stdio mode is chosen by any one of: the environment
    variable TRANSPORT_MODE being stdio (in this spelling), the argument
    --stdio, the argument -s. *)
Theorem reaper_unless_stdio (p : Process) :
  (reaper_timer (transportMode p) = None ↔
   TRANSPORT_MODE p = Some "stdio" ∨ "--stdio" ∈ argv p ∨ "-s" ∈ argv p) ∧
  (reaper_timer (transportMode p) = Some (5 * 60 * 1000, cleanupOldSessions) ↔
   ¬ (TRANSPORT_MODE p = Some "stdio" ∨ "--stdio" ∈ argv p ∨ "-s" ∈ argv p)).
Proof.
  rewrite <- useStdio_spec. unfold transportMode.
  destruct (useStdio p); cbn; split; split; try discriminate; try reflexivity.
  intros H. by destruct H.
Qed.
